(** * Oneledger protocol: cross-chain custody core.

    A shallow embedding of the Go sources
      - keys.BTCMultiSig            (threshold multi-signature aggregator),
      - storage.GasChainState       (gas-metered chain state),
      - bitcoin.TrackerStore        (tracker persistence, GetTrackerForLock),
      - event (ethereum handlers)   (transition handlers and engine wiring),
    together with the properties stated about them.

    Conventions of the embedding.
      - A Go slice is [option (list A)]: [None] is the nil slice, [Some l] a
        non-nil slice with elements [l].  Backing-array sharing between
        slices is not modelled; no property below depends on it.
      - Go [int]/[int64] values are [Z]; only comparisons are performed on
        them.  [Gas] is [uint64]: a [Z] reduced modulo [2^64].
      - A run-time panic (index out of range) is the outcome [Panic].
      - A method with a pointer receiver becomes a function returning the
        receiver's new value next to the method's result. *)

From stdpp Require Import gmap strings list sorting.
From Stdlib Require Import ZArith Lia.
From Stdlib Require OrderedTypeEx.
From Stdlib.Strings Require Import Byte.

#[local] Open Scope Z_scope.
#[local] Set Warnings "-register-all".

(* ===================================================================== *)
(** * Go values                                                           *)
(* ===================================================================== *)

Module Go.

Definition slice (A : Type) : Type := option (list A).

(** The elements of a slice; the nil slice has none. *)
Definition elems {A} (s : slice A) : list A := default [] s.

(** [len(s)] *)
Definition len {A} (s : slice A) : Z := Z.of_nat (length (elems s)).

(** [make([]T, n)]: a non-nil slice of [n] zero values. *)
Definition make {A} (zero : A) (n : Z) : slice A :=
  Some (replicate (Z.to_nat n) zero).

(** [s[i]] as an r-value; [None] stands for the index-out-of-range panic. *)
Definition index {A} (s : slice A) (i : Z) : option A :=
  if decide (0 <= i) then elems s !! Z.to_nat i else None.

(** [s[i] = x]; [None] stands for the index-out-of-range panic. *)
Definition store {A} (s : slice A) (i : Z) (x : A) : option (slice A) :=
  if decide (0 <= i < len s) then Some (Some (<[Z.to_nat i := x]> (elems s)))
  else None.

(** [s == nil] *)
Definition is_nil {A} (s : slice A) : bool :=
  match s with None => true | Some _ => false end.

(** The outcome of a call that may panic. *)
Inductive outcome (A : Type) : Type :=
| Done (a : A)
| Panic.
Arguments Done {A} a.
Arguments Panic {A}.

(** Errors, built the way the sources build them. *)
Inductive error : Type :=
| errors_New (msg : string)
| errors_Wrap (e : error) (msg : string).

Fixpoint Error (e : error) : string :=
  match e with
  | errors_New msg => msg
  | errors_Wrap e msg => msg +:+ ": " +:+ Error e
  end.

End Go.
Export Go.

#[global] Instance byte_eq_dec : EqDecision byte := Byte.byte_eq_dec.
#[global] Instance error_eq_dec : EqDecision error.
Proof. solve_decision. Defined.

(** [[]byte] *)
Abbreviation bytes := (slice byte).

(** [bytes.Equal(a, b)]: same length and same content; a nil slice equals
    an empty one. *)
Definition bytes_Equal (a b : bytes) : bool := bool_decide (elems a = elems b).

(* ===================================================================== *)
(** * encoding/json                                                       *)
(* ===================================================================== *)

(** The documents of the JSON library.  The library's text layer (number
    and string syntax, base64 of byte slices) is a bijection between texts
    and documents and is not part of this repository: an encoded value is
    represented by its document, and a byte slice by the string node that
    carries it. *)
Module json.

Inductive doc : Type :=
| Null
| Number (z : Z)
| Text (b : list byte)
| Array (items : list doc)
| Object (fields : list (string * doc)).

(** Field lookup in an object.  (The documents [json.Marshal] produces
    name each field once.) *)
Fixpoint field (name : string) (fields : list (string * doc)) : option doc :=
  match fields with
  | [] => None
  | (k, v) :: rest => if String.eqb k name then Some v else field name rest
  end.

Definition of_bytes (b : bytes) : doc :=
  match b with None => Null | Some l => Text l end.

(** Decoding into a byte slice: [null] makes it nil. *)
Definition to_bytes (d : doc) : option bytes :=
  match d with
  | Null => Some None
  | Text l => Some (Some l)
  | _ => None
  end.

Definition of_int (z : Z) : doc := Number z.

(** Decoding into an [int] that holds [old]: [null] leaves it as it is. *)
Definition to_int (old : Z) (d : doc) : option Z :=
  match d with
  | Number z => Some z
  | Null => Some old
  | _ => None
  end.

Definition of_slice {A} (enc : A → doc) (s : slice A) : doc :=
  match s with None => Null | Some l => Array (enc <$> l) end.

(** Decoding into a slice: [null] makes it nil, an array decodes
    element by element. *)
Definition to_slice {A} (dec : doc → option A) (d : doc) : option (slice A) :=
  match d with
  | Null => Some None
  | Array items => Some <$> mapM dec items
  | _ => None
  end.

(** The byte strings a document carries, in document order. *)
Fixpoint texts (d : doc) : list byte :=
  match d with
  | Text b => b
  | Array items => flat_map texts items
  | Object fields => flat_map (λ kv, texts kv.2) fields
  | _ => []
  end.

End json.

(* ===================================================================== *)
(** * keys: the threshold multi-signature aggregator                      *)
(* ===================================================================== *)

Module keys.

(** [type Address []byte]; written [Addr], the name [Address] being taken
    by the method of [BTCMultiSig]. *)
Abbreviation Addr := bytes.

Record BTCSignature : Type := mkBTCSignature {
  Index : Z;
  Address_ : Addr;      (* field [Address] *)
  Sign : bytes
}.

Record BTCMultiSig : Type := mkBTCMultiSig {
  Msg : bytes;
  M : Z;
  Signers : slice Addr;
  Signatures : slice BTCSignature
}.

#[global] Instance BTCSignature_eq_dec : EqDecision BTCSignature.
Proof. solve_decision. Defined.
#[global] Instance BTCMultiSig_eq_dec : EqDecision BTCMultiSig.
Proof. solve_decision. Defined.

(** The zero value of [BTCSignature]: what [make] fills a slot with. *)
Definition zeroSignature : BTCSignature :=
  {| Index := 0; Address_ := None; Sign := None |}.

Definition with_Signatures (m : BTCMultiSig) (sigs : slice BTCSignature)
  : BTCMultiSig :=
  {| Msg := Msg m; M := M m; Signers := Signers m; Signatures := sigs |}.

(** The error values of package keys (declared outside the files at hand;
    only their identity matters). *)
Definition ErrMissSigners : error := errors_New "missing signers".
Definition ErrInvalidThreshold : error := errors_New "invalid threshold".
Definition ErrNotExpectedSigner : error := errors_New "not expected signer".

(** [func NewBTCMultiSig(msg []byte, m int, signers []Address)], returning
    a pointer to the new value and an error. *)
Definition NewBTCMultiSig (msg : bytes) (m : Z) (signers : slice Addr)
  : error + BTCMultiSig :=
  if is_nil signers then inl ErrMissSigners
  else if (m <? 0) || (len signers <? m) then inl ErrInvalidThreshold
  else inr {| Msg := msg; M := m; Signers := signers;
              Signatures := make zeroSignature (len signers) |}.

(** [func (m *BTCMultiSig) AddSignature(s *BTCSignature) error].
    The result pairs the receiver after the call with the returned error;
    [Panic] is the index-out-of-range panic of [m.Signers[s.Index]] or of
    [m.Signatures[s.Index] = *s]. *)
Definition AddSignature (m : BTCMultiSig) (s : BTCSignature)
  : outcome (BTCMultiSig * option error) :=
  match index (Signers m) (Index s) with
  | None => Panic
  | Some signer =>
      if negb (bytes_Equal (Address_ s) signer) then
        Done (m, Some ErrNotExpectedSigner)
      else
        match store (Signatures m) (Index s) s with
        | None => Panic
        | Some sigs => Done (with_Signatures m sigs, None)
        end
  end.

(** A caller attaching signatures one after the other, whatever each call
    returns. *)
Fixpoint AddSignatures (m : BTCMultiSig) (ss : list BTCSignature)
  : outcome BTCMultiSig :=
  match ss with
  | [] => Done m
  | s :: rest =>
      match AddSignature m s with
      | Panic => Panic
      | Done (m', _) => AddSignatures m' rest
      end
  end.

(** [item.Sign != nil] *)
Definition signed (item : BTCSignature) : bool := negb (is_nil (Sign item)).

(** [func (m BTCMultiSig) IsValid() bool] *)
Definition IsValid (m : BTCMultiSig) : bool :=
  let cnt := Z.of_nat (length (filter (λ item, signed item = true)
                                      (elems (Signatures m)))) in
  if cnt <? M m then false else true.

(** [json.Marshal] of a [BTCSignature], by its field tags. *)
Definition marshalSignature (s : BTCSignature) : json.doc :=
  json.Object [("index", json.of_int (Index s));
               ("address", json.of_bytes (Address_ s));
               ("sign", json.of_bytes (Sign s))].

(** [json.Marshal] of a [BTCMultiSig], by its field tags. *)
Definition marshal (m : BTCMultiSig) : json.doc :=
  json.Object [("msg", json.of_bytes (Msg m));
               ("m", json.of_int (M m));
               ("signers", json.of_slice json.of_bytes (Signers m));
               ("signatures", json.of_slice marshalSignature (Signatures m))].

(** Decoding one field: absent fields keep the destination's value, a
    field of the wrong shape is an error ([None]). *)
Definition decodeField {A} (dec : json.doc → option A) (name : string)
    (fields : list (string * json.doc)) (old : A) : option A :=
  match json.field name fields with
  | None => Some old
  | Some d => dec d
  end.

(** An element of the [signatures] array is decoded from the zero value.
    (Where a document leaves a field out, Go keeps what the slice element
    held before; the documents [Bytes] produces carry every field.) *)
Definition unmarshalSignature (d : json.doc) : option BTCSignature :=
  match d with
  | json.Object fields =>
      i ← decodeField (json.to_int 0) "index" fields 0;
      a ← decodeField json.to_bytes "address" fields None;
      s ← decodeField json.to_bytes "sign" fields None;
      Some {| Index := i; Address_ := a; Sign := s |}
  | _ => None
  end.

(** [json.Unmarshal(b, m)]: the fields present in the document overwrite
    those of [m]. *)
Definition unmarshal (d : json.doc) (m : BTCMultiSig) : option BTCMultiSig :=
  match d with
  | json.Object fields =>
      msg ← decodeField json.to_bytes "msg" fields (Msg m);
      th ← decodeField (json.to_int (M m)) "m" fields (M m);
      sg ← decodeField (json.to_slice json.to_bytes) "signers" fields (Signers m);
      ss ← decodeField (json.to_slice unmarshalSignature) "signatures" fields
             (Signatures m);
      Some {| Msg := msg; M := th; Signers := sg; Signatures := ss |}
  | _ => None
  end.

Definition ErrUnmarshal : error := errors_New "json: cannot unmarshal".

(** [func (m BTCMultiSig) Bytes() []byte]: the receiver is a copy; only its
    slots with [Sign != nil] are encoded. *)
Definition Bytes (m : BTCMultiSig) : json.doc :=
  let signatures := Signatures m in
  let kept := filter (λ item, signed item = true) (elems signatures) in
  marshal (with_Signatures m (Some kept)).

(** The loop of [FromBytes]: [m.Signatures[item.Index] = item]. *)
Fixpoint place (slots : slice BTCSignature) (items : list BTCSignature)
  : option (slice BTCSignature) :=
  match items with
  | [] => Some slots
  | item :: rest =>
      match store slots (Index item) item with
      | None => None
      | Some slots' => place slots' rest
      end
  end.

(** [func (m *BTCMultiSig) FromBytes(b []byte) error].  A failed decode
    returns the error; the fields a failed [json.Unmarshal] may already
    have written are not modelled. *)
Definition FromBytes (m : BTCMultiSig) (b : json.doc)
  : outcome (BTCMultiSig * option error) :=
  match unmarshal b m with
  | None => Done (m, Some ErrUnmarshal)
  | Some m1 =>
      let signatures := Signatures m1 in
      match place (make zeroSignature (len (Signers m1))) (elems signatures) with
      | None => Panic
      | Some slots => Done (with_Signatures m1 slots, None)
      end
  end.

(** The shape [NewBTCMultiSig] and [FromBytes] establish and
    [AddSignature] keeps: one signature slot per signer. *)
Definition slot_per_signer (m : BTCMultiSig) : Prop :=
  len (Signatures m) = len (Signers m).

(** Every signed slot holds a signature that carries the slot's own index,
    and the slot belongs to a signer. *)
Definition carries_index (m : BTCMultiSig) : Prop :=
  ∀ (i : nat) (s : BTCSignature),
    elems (Signatures m) !! i = Some s → signed s = true →
    Index s = Z.of_nat i ∧ Z.of_nat i < len (Signers m).

(** What slot [i] of [m] holds as far as the encoding is concerned: its
    signature when the slot is signed, the zero value otherwise. *)
Definition slot (m : BTCMultiSig) (i : Z) : BTCSignature :=
  match index (Signatures m) i with
  | Some s => if signed s then s else zeroSignature
  | None => zeroSignature
  end.

Section Address.

(** [utils.Hash]: the hash function of package utils. *)
Variable Hash : json.doc → Addr.

(** [func (m BTCMultiSig) Address() Address] *)
Definition Address (m : BTCMultiSig) : Addr :=
  let s := {| Msg := Msg m; M := M m; Signers := Signers m;
              Signatures := None |} in
  let b := Bytes s in
  Hash b.

End Address.

(** Concrete values: three (and five) signers, and signatures for them. *)
Definition signerA : Addr := Some ["a"%byte].
Definition signerB : Addr := Some ["b"%byte].
Definition signerC : Addr := Some ["c"%byte].
Definition signerD : Addr := Some ["d"%byte].
Definition signerE : Addr := Some ["e"%byte].

Definition sigOf (i : Z) (a : Addr) : BTCSignature :=
  {| Index := i; Address_ := a; Sign := Some ["s"%byte; "g"%byte] |}.

Definition threeSigners : BTCMultiSig :=
  {| Msg := Some ["m"%byte]; M := 2;
     Signers := Some [signerA; signerB; signerC];
     Signatures := Some [zeroSignature; zeroSignature; zeroSignature] |}.

(** A value built by hand, with a signer and no signature slot. *)
Definition noSlots : BTCMultiSig :=
  {| Msg := Some ["m"%byte]; M := 1; Signers := Some [signerA];
     Signatures := None |}.

(** Two of five slots filled: slots 1 and 3. *)
Definition twoOfFive : BTCMultiSig :=
  {| Msg := Some ["m"%byte]; M := 2;
     Signers := Some [signerA; signerB; signerC; signerD; signerE];
     Signatures := Some [zeroSignature; sigOf 1 signerB; zeroSignature;
                         sigOf 3 signerD; zeroSignature] |}.

(** A stand-in for the hash function on concrete inputs. *)
Definition textHash (d : json.doc) : Addr := Some (json.texts d).

(** ** The other methods of [BTCMultiSig] *)

(** [func (m BTCMultiSig) IsCancel() bool] *)
Definition IsCancel (m : BTCMultiSig) : bool :=
  let cnt := Z.of_nat (length (filter (λ item, signed item = true)
                                      (elems (Signatures m)))) in
  if cnt <? M m then false else true.

(** The loop [for i := range m.Signers { if bytes.Equal(addr, m.Signers[i])
    { ...; break / return } }], from position [i]: the first position whose
    signer equals [addr], if there is one. *)
Fixpoint signerLoop (addr : Addr) (signers : list Addr) (i : Z) : option Z :=
  match signers with
  | [] => None
  | a :: rest =>
      if bytes_Equal addr a then Some i else signerLoop addr rest (i + 1)
  end.

(** [func (m BTCMultiSig) HasAddressSigned(addr Address) bool]; [Panic] is
    the index-out-of-range panic of [m.Signatures[index]]. *)
Definition HasAddressSigned (m : BTCMultiSig) (addr : Addr) : outcome bool :=
  let index :=
    match signerLoop addr (elems (Signers m)) 0 with
    | Some i => i
    | None => len (Signers m) + 100
    end in
  if len (Signers m) <? index then Done false
  else
    match Go.index (Signatures m) index with
    | None => Panic
    | Some item => if len (Sign item) =? 0 then Done false else Done true
    end.

(** [func (m *BTCMultiSig) GetSignerIndex(addr Address) (int, error)] *)
Definition GetSignerIndex (m : BTCMultiSig) (addr : Addr) : Z * option error :=
  match signerLoop addr (elems (Signers m)) 0 with
  | Some i => (i, None)
  | None => (0, Some (errors_New "address not found"))
  end.

(** [func (m *BTCMultiSig) GetSignatures() []BTCSignature] *)
Definition GetSignatures (m : BTCMultiSig) : slice BTCSignature := Signatures m.

(** The first loop of [GetSignaturesInOrder]:
    [if len(s.Sign) == 0 { continue }; tempSignatures[s.Index] = s.Sign].
    [None] is the index-out-of-range panic. *)
Fixpoint orderLoop (tempSignatures : slice bytes) (sigs : list BTCSignature)
  : option (slice bytes) :=
  match sigs with
  | [] => Some tempSignatures
  | s :: rest =>
      if len (Sign s) =? 0 then orderLoop tempSignatures rest
      else
        match store tempSignatures (Index s) (Sign s) with
        | None => None
        | Some temp => orderLoop temp rest
        end
  end.

(** [func (m *BTCMultiSig) GetSignaturesInOrder() [][]byte]  (the lines it
    prints are not modelled). *)
Definition GetSignaturesInOrder (m : BTCMultiSig) : outcome (slice bytes) :=
  match orderLoop (make None (len (Signers m))) (elems (Signatures m)) with
  | None => Panic
  | Some tempSignatures =>
      Done (Some (filter (λ sig : bytes, len sig ≠ 0) (elems tempSignatures)))
  end.

(** [func (m *BTCMultiSig) Marshal() ([]byte, error)] *)
Definition Marshal (m : BTCMultiSig) : json.doc * option error := (Bytes m, None).

(** [func (m *BTCMultiSig) Unmarshal(b []byte) error] *)
Definition Unmarshal (m : BTCMultiSig) (b : json.doc)
  : outcome (BTCMultiSig * option error) := FromBytes m b.

(** The common shape of the loops of [FromBytes] and
    [GetSignaturesInOrder]: every kept item writes its value at the
    position it names; [None] is the index-out-of-range panic. *)
Fixpoint scatter {A B : Type} (keep : A → bool) (idx : A → Z) (val : A → B)
    (temp : slice B) (l : list A) : option (slice B) :=
  match l with
  | [] => Some temp
  | a :: rest =>
      if keep a then
        match store temp (idx a) (val a) with
        | None => None
        | Some temp' => scatter keep idx val temp' rest
        end
      else scatter keep idx val temp rest
  end.

(** [len(s.Sign) != 0] *)
Definition nonempty (s : BTCSignature) : bool := negb (len (Sign s) =? 0).

(** More concrete values: a signer listed twice, and a slot whose
    signature names a position outside the signers. *)
Definition dupSigners : BTCMultiSig :=
  {| Msg := Some ["m"%byte]; M := 1;
     Signers := Some [signerA; signerB; signerA];
     Signatures := Some [zeroSignature; zeroSignature; zeroSignature] |}.

Definition foreignIndex : BTCMultiSig :=
  {| Msg := Some ["m"%byte]; M := 1;
     Signers := Some [signerA; signerB; signerC];
     Signatures := Some [sigOf 7 signerA; zeroSignature; zeroSignature] |}.

(** The number of slots that count toward the threshold. *)
Definition signedCount (m : BTCMultiSig) : Z :=
  Z.of_nat (length (filter (λ item, signed item = true) (elems (Signatures m)))).

End keys.

(* ===================================================================== *)
(** * storage: the gas-metered chain state                                 *)
(* ===================================================================== *)

Module storage.

(** [type Gas uint64] *)
Definition Gas : Type := Z.

(** Reduction of an arithmetic result to [uint64]. *)
Definition wrap (z : Z) : Gas := z mod 2 ^ 64.

Definition STOREBYTES : Gas := 20.
Definition READFLAT : Gas := 20.
Definition READBYTES : Gas := 2.
Definition WRITEFLAT : Gas := 200.
Definition WRITEBYTES : Gas := 20.
Definition VERIFYSIG : Gas := 50.
Definition HASHBYTES : Gas := 5.
Definition CHECKEXIST : Gas := 20.
Definition DELETE : Gas := 50.

Record gasCalculator : Type := mkGasCalculator {
  limit : Gas;
  consumed : Gas
}.

Definition with_consumed (g : gasCalculator) (c : Gas) : gasCalculator :=
  {| limit := limit g; consumed := c |}.

(** [func (g gasCalculator) IsEnough() bool] *)
Definition IsEnough (g : gasCalculator) : bool :=
  if limit g <=? consumed g then true else false.

(** [func (g gasCalculator) Consume(amount, category Gas, allowOverflow bool)
    bool]: the body, run on the receiver [g].  The second component is the
    receiver variable at the end of the body. *)
Definition Consume (g : gasCalculator) (amount category : Gas)
    (allowOverflow : bool) : bool * gasCalculator :=
  let currentGasCost := wrap (amount * category) in
  if allowOverflow then
    (true, with_consumed g (wrap (consumed g + currentGasCost)))
  else if limit g <=? consumed g then
    (false, g)
  else
    (true, with_consumed g (wrap (consumed g + currentGasCost))).

(** [func (g gasCalculator) GetLimit() Gas] *)
Definition GetLimit (g : gasCalculator) : Gas := limit g.

(** [func (g gasCalculator) GetConsumed() Gas] *)
Definition GetConsumed (g : gasCalculator) : Gas := consumed g.

(** [func NewGasCalculator(limit Gas) GasCalculator]: the interface value
    holds a pointer to the calculator built here; the model carries the
    pointed-to calculator. *)
Definition NewGasCalculator (lim : Gas) : gasCalculator :=
  {| limit := lim; consumed := 0 |}.

(** A call [c.Consume(...)] on the interface value [c] holding a pointer to
    the calculator [cell].  [Consume] is declared on [gasCalculator], not on
    its pointer: the call runs the body on a copy of [cell], and the copy is
    dropped when the call returns.  The result pairs the returned boolean
    with the calculator the pointer refers to after the call. *)
Definition call_Consume (cell : gasCalculator) (amount category : Gas)
    (allowOverflow : bool) : bool * gasCalculator :=
  let receiver := cell in
  let '(ok, _) := Consume receiver amount category allowOverflow in
  (ok, cell).

Definition ErrExceedGasLimit : error := errors_New "gas limit exceeded".

(** Store keys are byte strings. *)
Abbreviation StoreKey := string.

Section GasChainState.

(** The chain state below the gas meter ([*ChainState], declared outside
    the files at hand) is taken as given: its type and its four
    operations. *)
Variable ChainState : Type.
Variable ChainState_Set : ChainState → StoreKey → bytes → ChainState * option error.
Variable ChainState_Get : ChainState → StoreKey → bool → bytes.
Variable ChainState_Exists : ChainState → StoreKey → bool.
Variable ChainState_Remove : ChainState → StoreKey → ChainState * (bytes * bool).

Record GasChainState : Type := mkGasChainState {
  chain : ChainState;
  calc : gasCalculator
}.

(** [func (g *GasChainState) Set(key, value []byte) error]  (written
    [Set_], as [Exists_] below: the plain names are taken). *)
Definition Set_ (g : GasChainState) (key : StoreKey) (value : bytes)
  : GasChainState * option error :=
  let '(ok, calc1) := call_Consume (calc g) 1 WRITEFLAT false in
  if negb ok then ({| chain := chain g; calc := calc1 |}, Some ErrExceedGasLimit)
  else
    let '(chain1, err) := ChainState_Set (chain g) key value in
    match err with
    | Some e => ({| chain := chain1; calc := calc1 |}, Some e)
    | None =>
        let '(_, calc2) := call_Consume calc1 (len value) WRITEBYTES true in
        ({| chain := chain1; calc := calc2 |}, None)
    end.

(** [func (g *GasChainState) Get(key StoreKey, lastCommit bool) []byte] *)
Definition Get (g : GasChainState) (key : StoreKey) (lastCommit : bool)
  : GasChainState * bytes :=
  let '(ok, calc1) := call_Consume (calc g) 1 READFLAT false in
  if negb ok then ({| chain := chain g; calc := calc1 |}, None)
  else
    let value := ChainState_Get (chain g) key lastCommit in
    let '(_, calc2) := call_Consume calc1 (len value) READBYTES true in
    ({| chain := chain g; calc := calc2 |}, value).

(** [func (g *GasChainState) Exists(key StoreKey) bool] *)
Definition Exists_ (g : GasChainState) (key : StoreKey)
  : GasChainState * bool :=
  let '(ok, calc1) := call_Consume (calc g) 1 CHECKEXIST false in
  if negb ok then ({| chain := chain g; calc := calc1 |}, false)
  else
    let exist := ChainState_Exists (chain g) key in
    ({| chain := chain g; calc := calc1 |}, exist).

(** [func (g *GasChainState) Remove(key []byte) ([]byte, bool)] *)
Definition Remove (g : GasChainState) (key : StoreKey)
  : GasChainState * (bytes * bool) :=
  let '(ok, calc1) := call_Consume (calc g) 1 DELETE false in
  if negb ok then ({| chain := chain g; calc := calc1 |}, (None, false))
  else
    let '(chain1, res) := ChainState_Remove (chain g) key in
    ({| chain := chain1; calc := calc1 |}, res).

(** The operations of the metered store, and what a call reports. *)
Inductive op : Type :=
| OpSet (key : StoreKey) (value : bytes)
| OpGet (key : StoreKey) (lastCommit : bool)
| OpExists (key : StoreKey)
| OpRemove (key : StoreKey).

Inductive reply : Type :=
| RSet (err : option error)
| RGet (value : bytes)
| RExists (exist : bool)
| RRemove (value : bytes) (ok : bool).

Definition step (g : GasChainState) (o : op) : GasChainState * reply :=
  match o with
  | OpSet key value => let '(g', e) := Set_ g key value in (g', RSet e)
  | OpGet key lc => let '(g', v) := Get g key lc in (g', RGet v)
  | OpExists key => let '(g', b) := Exists_ g key in (g', RExists b)
  | OpRemove key => let '(g', (v, b)) := Remove g key in (g', RRemove v b)
  end.

(** A sequence of operations, with the replies in order. *)
Fixpoint run (g : GasChainState) (ops : list op) : GasChainState * list reply :=
  match ops with
  | [] => (g, [])
  | o :: rest =>
      let '(g1, r) := step g o in
      let '(g2, rs) := run g1 rest in
      (g2, r :: rs)
  end.

(** The cost the constants of this file assign to an operation whose value
    (written or read) is [value]: a flat part and a per-byte part. *)
Definition cost (o : op) (value : bytes) : Gas :=
  match o with
  | OpSet _ _ => wrap (1 * WRITEFLAT) + wrap (len value * WRITEBYTES)
  | OpGet _ _ => wrap (1 * READFLAT) + wrap (len value * READBYTES)
  | OpExists _ => wrap (1 * CHECKEXIST)
  | OpRemove _ => wrap (1 * DELETE)
  end.

End GasChainState.

Arguments mkGasChainState {ChainState} _ _.
Arguments chain {ChainState} _.
Arguments calc {ChainState} _.

(** Modelled from the spec: the chain state capability below the meter
    ([ChainState] is not among the files at hand): a key/value map whose
    [Set] stores, [Get] reads, [Exists] tests and [Remove] deletes and
    returns the old value.  Used to run the metered store on concrete
    inputs. *)
Definition memChainState : Type := gmap string bytes.

Definition mem_Set (c : memChainState) (key : StoreKey) (value : bytes)
  : memChainState * option error := (<[key := value]> c, None).

Definition mem_Get (c : memChainState) (key : StoreKey) (lastCommit : bool)
  : bytes := default None (c !! key).

Definition mem_Exists (c : memChainState) (key : StoreKey) : bool :=
  bool_decide (is_Some (c !! key)).

Definition mem_Remove (c : memChainState) (key : StoreKey)
  : memChainState * (bytes * bool) :=
  match c !! key with
  | Some v => (delete key c, (v, true))
  | None => (c, (None, false))
  end.

Definition tenBytes : bytes := Some (replicate 10 "x"%byte).

Definition mem_run : GasChainState memChainState → list op
    → GasChainState memChainState * list reply :=
  run memChainState mem_Set mem_Get mem_Exists mem_Remove.

Section Unmetered.

Variable ChainState : Type.
Variable ChainState_Set : ChainState → StoreKey → bytes → ChainState * option error.
Variable ChainState_Get : ChainState → StoreKey → bool → bytes.
Variable ChainState_Exists : ChainState → StoreKey → bool.
Variable ChainState_Remove : ChainState → StoreKey → ChainState * (bytes * bool).

(** The same operation issued on the chain state itself, without the
    meter in front. *)
Definition direct (c : ChainState) (o : op) : ChainState * reply :=
  match o with
  | OpSet key value => let '(c', e) := ChainState_Set c key value in (c', RSet e)
  | OpGet key lc => (c, RGet (ChainState_Get c key lc))
  | OpExists key => (c, RExists (ChainState_Exists c key))
  | OpRemove key => let '(c', (v, b)) := ChainState_Remove c key in (c', RRemove v b)
  end.

Fixpoint direct_run (c : ChainState) (ops : list op) : ChainState * list reply :=
  match ops with
  | [] => (c, [])
  | o :: rest =>
      let '(c1, r) := direct c o in
      let '(c2, rs) := direct_run c1 rest in
      (c2, r :: rs)
  end.

End Unmetered.

(** What a refused operation reports: the gas-limit error for [Set], and
    for the others the value that stands for "nothing". *)
Definition refusal (o : op) : reply :=
  match o with
  | OpSet _ _ => RSet (Some ErrExceedGasLimit)
  | OpGet _ _ => RGet None
  | OpExists _ => RExists false
  | OpRemove _ => RRemove None false
  end.

End storage.

(* ===================================================================== *)
(** * bitcoin: the tracker store                                          *)
(* ===================================================================== *)

Module bitcoin.

(** [strings.ToLower] as it acts on ASCII strings: on a string whose bytes
    are all below 128 Go maps the letters A to Z to a to z and leaves every
    other byte.  Outside ASCII Go also maps other upper-case letters and
    rewrites invalid UTF-8, which is not modelled: what is stated about
    names is stated for ASCII names ([isASCII]). *)
Definition lower (c : Ascii.ascii) : Ascii.ascii :=
  let n := Ascii.N_of_ascii c in
  if ((65 <=? n) && (n <=? 90))%N then Ascii.ascii_of_N (n + 32) else c.

Fixpoint ToLower (s : string) : string :=
  match s with
  | String.EmptyString => String.EmptyString
  | String.String c rest => String.String (lower c) (ToLower rest)
  end.

(** Every byte of the string is below 128 ([utf8.RuneSelf]). *)
Fixpoint isASCII (s : string) : bool :=
  match s with
  | String.EmptyString => true
  | String.String c rest => (Ascii.N_of_ascii c <? 128)%N && isASCII rest
  end.

(** [func keyFromName(name string) []byte] *)
Definition keyFromName (name : string) : string := ToLower name.

(** Modelled from the spec: the bitcoin [Tracker] (package data/bitcoin is
    not among the files at hand), with the attributes the tracker store
    reads: its name, whether it reports [IsAvailable()], and its
    [CurrentBalance]. *)
Record Tracker : Type := mkTracker {
  Name : string;
  Available : bool;
  CurrentBalance : Z
}.

#[global] Instance Tracker_eq_dec : EqDecision Tracker.
Proof. solve_decision. Defined.

Definition IsAvailable (t : Tracker) : bool := Available t.
Definition GetBalance (t : Tracker) : Z := CurrentBalance t.

Definition with_Name (t : Tracker) (name : string) : Tracker :=
  {| Name := name; Available := Available t; CurrentBalance := CurrentBalance t |}.

Section Store.

(** The stored form of a value (a byte string in the sources) is kept
    abstract; the serializer decides what it decodes to. *)
Variable V : Type.

(** Modelled from the spec: the ordered key/value chain state
    ([storage.State] is not among the files at hand): entries in ascending
    key order; [Set], which writes a key or fails, and [IterateRange(start,
    end, ascending, visit)], which visits the entries with
    [start <= key < end] in the requested order until the visitor returns
    [true]. *)
Definition State : Type := list (string * V).

(** When [Set] fails (the gas budget is exceeded, or the underlying store
    fails) is decided outside the files at hand: the error it returns for
    a state, a key and a value, if any. *)
Variable Set_error : State → string → V → option error.

Definition in_range (start end_ : string) (e : string * V) : bool :=
  (start <=? e.1)%string && (e.1 <? end_)%string.

(** The entries once [key] holds [value]. *)
Fixpoint written (st : State) (key : string) (value : V) : State :=
  match st with
  | [] => [(key, value)]
  | (k, v) :: rest =>
      if String.eqb k key then (key, value) :: rest
      else if (key <? k)%string then (key, value) :: (k, v) :: rest
      else (k, v) :: written rest key value
  end.

(** Modelled from the spec: [Set(key, bytes)], returning an error.  A
    failed [Set] leaves the state as it was; a successful one makes [key]
    hold [value]. *)
Definition State_Set (st : State) (key : string) (value : V)
  : State * option error :=
  match Set_error st key value with
  | Some err => (st, Some err)
  | None => (written st key value, None)
  end.

Fixpoint visit {S : Type} (fn : string → V → S → S * bool)
    (entries : list (string * V)) (acc : S) : S :=
  match entries with
  | [] => acc
  | (k, v) :: rest =>
      let '(acc', stop) := fn k v acc in
      if stop then acc' else visit fn rest acc'
  end.

(** The visitor is a closure over local variables of the caller; their
    values are the accumulator [S]. *)
Definition IterateRange {S : Type} (st : State) (start end_ : string)
    (ascending : bool) (fn : string → V → S → S * bool) (init : S) : S :=
  let selected := filter (λ e, in_range start end_ e = true) st in
  visit fn (if ascending then selected else reverse selected) init.

(** [serialize.Serializer], for trackers. *)
Record Serializer : Type := mkSerializer {
  Serialize : Tracker → error + V;
  Deserialize : V → option Tracker
}.

Record TrackerStore : Type := mkTrackerStore {
  State_ : State;         (* field [State] *)
  szlr : Serializer;
  prefix : string
}.

(** The initial value of [lowestAmount]. *)
Definition initialLowest : Z := 999999999999999.

(** The visitor of [GetTrackerForLock]; its state is the pair of the local
    variables [lowestAmount] and [tempTracker]. *)
Definition lockVisitor (ts : TrackerStore) (k : string) (v : V)
    (acc : Z * option Tracker) : (Z * option Tracker) * bool :=
  let '(lowestAmount, tempTracker) := acc in
  match Deserialize (szlr ts) v with
  | None => ((lowestAmount, tempTracker), false)
  | Some d =>
      if IsAvailable d && (GetBalance d <? lowestAmount)
      then ((CurrentBalance d, Some d), false)
      else ((lowestAmount, tempTracker), false)
  end.

(** [func (ts *TrackerStore) GetTrackerForLock()], returning a tracker
    pointer and an error. *)
Definition GetTrackerForLock (ts : TrackerStore) : error + Tracker :=
  let start := prefix ts +:+ "tracker_  " in
  let end_ := prefix ts +:+ "tracker_~~" in
  let doAscending := true in
  let '(lowestAmount, tempTracker) :=
    IterateRange (State_ ts) start end_ doAscending (lockVisitor ts)
                 (initialLowest, None) in
  match tempTracker with
  | None => inl (errors_New "no tracker found")
  | Some d => inr d
  end.

(** [func (ts *TrackerStore) SetTracker(name string, tracker *Tracker) error].
    The name is also written to the caller's tracker; the error of
    [State.Set] is the error returned. *)
Definition SetTracker (ts : TrackerStore) (name : string) (tracker : Tracker)
  : TrackerStore * option error :=
  let tracker := with_Name tracker name in
  let key := keyFromName name in
  let key := prefix ts +:+ key in
  match Serialize (szlr ts) tracker with
  | inl err => (ts, Some (errors_Wrap err "error de-serializing domain"))
  | inr data =>
      let '(st, err) := State_Set (State_ ts) key data in
      ({| State_ := st; szlr := szlr ts; prefix := prefix ts |}, err)
  end.

End Store.

Arguments mkSerializer {V} _ _.
Arguments mkTrackerStore {V} _ _ _.
Arguments State_ {V} _.
Arguments szlr {V} _.
Arguments prefix {V} _.
Arguments Serialize {V} _ _.
Arguments Deserialize {V} _ _.
Arguments in_range {V} _ _ _.
Arguments written {V} _ _ _.
Arguments State_Set {V} _ _ _ _.
Arguments visit {V S} _ _ _.
Arguments IterateRange {V S} _ _ _ _ _ _.
Arguments lockVisitor {V} _ _ _ _.
Arguments GetTrackerForLock {V} _.
Arguments SetTracker {V} _ _ _ _.

(** The entries [GetTrackerForLock] scans: those whose key lies in the
    range it passes to [IterateRange]. *)
Definition scanned {V} (ts : TrackerStore V) : list (string * V) :=
  filter (λ e, in_range (prefix ts +:+ "tracker_  ")
                        (prefix ts +:+ "tracker_~~") e = true) (State_ ts).

(** A tracker [GetTrackerForLock] can select. *)
Definition eligible (d : Tracker) : Prop :=
  IsAvailable d = true ∧ GetBalance d < initialLowest.

(** The state is kept in strictly ascending key order. *)
Definition ordered {V} (st : State V) : Prop :=
  StronglySorted (λ a b : string * V, (a.1 <? b.1)%string = true) st.

(** The entry [e] decodes to [d], an available tracker with balance below
    [low]: the test of the visitor. *)
Definition beats {V} (ts : TrackerStore V) (low : Z) (e : string * V)
    (d : Tracker) : Prop :=
  Deserialize (szlr ts) e.2 = Some d
  ∧ IsAvailable d = true ∧ GetBalance d < low.

(** A serializer whose stored form is the decoded tracker itself, an
    undecodable value being [None]. *)
Definition plainSerializer : Serializer (option Tracker) :=
  mkSerializer (λ t, inr (Some t)) (λ v, v).

(** Concrete stores: the serializer above and the prefix ["btct_"]. *)
Definition emptyStore : TrackerStore (option Tracker) :=
  mkTrackerStore [] plainSerializer "btct_".

(** A state none of whose writes fails. *)
Definition neverFails {V} (st : State V) (key : string) (value : V)
  : option error := None.

(** [SetTracker] for each tracker of a list, under the tracker's name, on
    a state none of whose writes fails. *)
Definition setAll (ts : TrackerStore (option Tracker)) (l : list Tracker)
  : TrackerStore (option Tracker) :=
  foldl (λ ts t, (SetTracker neverFails ts (Name t) t).1) ts l.

Definition trackerA : Tracker := mkTracker "tracker_A" true 50.
Definition trackerB : Tracker := mkTracker "tracker_B" true 10.
Definition trackerC : Tracker := mkTracker "tracker_C" false 5.

Definition abcStore : TrackerStore (option Tracker) :=
  setAll emptyStore [trackerA; trackerB; trackerC].

(** ** Reading a tracker back *)

Section Lookup.

Variable V : Type.

(** Modelled from the spec: reading the ordered chain state
    ([storage.State] is not among the files at hand): [Get(key)] gives the
    value stored under [key], [Exists(key)] tells whether there is one. *)
Fixpoint State_Get (st : State V) (key : string) : option V :=
  match st with
  | [] => None
  | (k, v) :: rest => if String.eqb k key then Some v else State_Get rest key
  end.

Definition State_Exists (st : State V) (key : string) : bool :=
  match State_Get st key with Some _ => true | None => false end.

Definition ErrTrackerNotFound : error := errors_New "tracker not found".

(** The error of a failed [Deserialize] (the serializer's own error value
    is not modelled). *)
Definition ErrDeserialize : error := errors_New "deserialize failed".

(** [func (ts *TrackerStore) Get(name string)], returning a tracker pointer
    and an error.  The error of [State.Get] is dropped by the source; data
    that is not there does not deserialize. *)
Definition Get (ts : TrackerStore V) (name : string) : error + Tracker :=
  let key := keyFromName name in
  let key := prefix ts +:+ key in
  let exists_ := State_Exists (State_ ts) key in
  if negb exists_ then inl ErrTrackerNotFound
  else
    let data := State_Get (State_ ts) key in
    match data ≫= Deserialize (szlr ts) with
    | None => inl (errors_Wrap ErrDeserialize "error de-serializing domain")
    | Some d => inr d
    end.

End Lookup.

Arguments State_Get {V} _ _.
Arguments State_Exists {V} _ _.
Arguments Get {V} _ _.

End bitcoin.

(* ===================================================================== *)
(** * transition: the engine                                              *)
(* ===================================================================== *)

Module transition.

(** [transition.Status]: a small integer; zero is the deleted status. *)
Definition Status : Type := Z.

Section Engine.

(** The type of handlers, [func(ctx interface{}) error]. *)
Variable Handler : Type.

Record Transition : Type := mkTransition {
  Name : string;
  Fn : Handler;
  From : Status;
  To : Status
}.

(** Modelled from the spec: the transition engine (package
    utils/transition is not among the files at hand).  An engine owns the
    declared statuses and the transitions by name.  [NewEngine] fails to
    build on a status list with duplicates; it returns no error value, so
    the failure is a panic.  [Register] fails with an invalid-status error
    when [From], or a nonzero [To], is not a declared status, and with a
    duplicate-name error when the name is taken; a failed registration
    leaves the engine as it was. *)
Record Engine : Type := mkEngine {
  statuses : list Status;
  transitions : gmap string Transition
}.

Definition NewEngine (sts : list Status) : outcome Engine :=
  if decide (NoDup sts) then Done {| statuses := sts; transitions := ∅ |}
  else Panic.

Definition ErrInvalidStatus : error := errors_New "invalid status".
Definition ErrDuplicateName : error := errors_New "duplicate transition name".

Definition Register (e : Engine) (t : Transition) : Engine * option error :=
  if negb (bool_decide (From t ∈ statuses e)
           && (bool_decide (To t = 0) || bool_decide (To t ∈ statuses e)))
  then (e, Some ErrInvalidStatus)
  else if bool_decide (is_Some (transitions e !! Name t))
  then (e, Some ErrDuplicateName)
  else ({| statuses := statuses e;
           transitions := <[Name t := t]> (transitions e) |}, None).

(** [err := e.Register(t); if err != nil { panic(err) }] *)
Definition mustRegister (e : outcome Engine) (t : Transition) : outcome Engine :=
  match e with
  | Panic => Panic
  | Done e =>
      match Register e t with
      | (_, Some _) => Panic
      | (e', None) => Done e'
      end
  end.

(** The edges of an engine: name, source and target of every registered
    transition. *)
Definition edges (e : Engine) : list (string * Status * Status) :=
  (λ kt, (kt.1, From kt.2, To kt.2)) <$> map_to_list (transitions e).

End Engine.

Arguments mkTransition {Handler} _ _ _ _.
Arguments Name {Handler} _.
Arguments Fn {Handler} _.
Arguments From {Handler} _.
Arguments To {Handler} _.
Arguments statuses {Handler} _.
Arguments transitions {Handler} _.
Arguments NewEngine {Handler} _.
Arguments Register {Handler} _ _.
Arguments mustRegister {Handler} _ _.
Arguments edges {Handler} _.

End transition.

(* ===================================================================== *)
(** * ethereum and event: trackers, jobs and the transition handlers      *)
(* ===================================================================== *)

Module ethereum.

(** Modelled from the spec: the tracker states of package data/ethereum
    (not among the files at hand), the five constants the handlers
    name. *)
Inductive TrackerState : Type :=
| New
| BusyBroadcasting
| BusyFinalizing
| Finalized
| Minted.

#[global] Instance TrackerState_eq_dec : EqDecision TrackerState.
Proof. solve_decision. Defined.

Definition TrackerState_to_nat (s : TrackerState) : nat :=
  match s with
  | New => 0 | BusyBroadcasting => 1 | BusyFinalizing => 2
  | Finalized => 3 | Minted => 4
  end%nat.

Definition TrackerState_of_nat (n : nat) : TrackerState :=
  match n with
  | 0 => New | 1 => BusyBroadcasting | 2 => BusyFinalizing
  | 3 => Finalized | _ => Minted
  end%nat.

#[global] Instance TrackerState_countable : Countable TrackerState.
Proof.
  apply (inj_countable' TrackerState_to_nat TrackerState_of_nat).
  intros []; reflexivity.
Defined.

(** The lifecycle order of the states. *)
Definition lifecycle : list TrackerState :=
  [New; BusyBroadcasting; BusyFinalizing; Finalized; Minted].

Section Tracker.

(** The fields of a tracker besides those the handlers name (votes,
    validators, transaction data). *)
Variable Extra : Type.

(** Modelled from the spec: the ethereum [Tracker], with the fields the
    handlers read and write. *)
Record Tracker : Type := mkTracker {
  State : TrackerState;
  TrackerName : string;
  TaskCompleted : bool;
  rest : Extra
}.

Definition with_State (t : Tracker) (s : TrackerState) : Tracker :=
  {| State := s; TrackerName := TrackerName t;
     TaskCompleted := TaskCompleted t; rest := rest t |}.

(** The identity of a job: derived from the tracker name and the target
    state. *)
Definition JobID : Type := string * TrackerState.

(** [tracker.GetJobID(state)] *)
Definition GetJobID (t : Tracker) (s : TrackerState) : JobID :=
  (TrackerName t, s).

End Tracker.

Arguments mkTracker {Extra} _ _ _ _.
Arguments State {Extra} _.
Arguments TrackerName {Extra} _.
Arguments TaskCompleted {Extra} _.
Arguments rest {Extra} _.
Arguments with_State {Extra} _ _.
Arguments GetJobID {Extra} _ _.

End ethereum.

Module event.
Import ethereum.

Definition JobTypeAddSignature : string := "addSignature".
Definition JobTypeBTCBroadcast : string := "btcBroadcast".
Definition JobTypeBTCCheckFinality : string := "btcCheckFinality".
Definition JobTypeETHCheckfinalty : string := "ethCheckFinality".
Definition JobTypeETHBroadcast : string := "ethBroadcast".
Definition MaxJobRetries : Z := 10.

(** Modelled from the spec: a job, [{Type, TrackerName, TargetState,
    RetryCount, Done}] (the job types are not among the files at hand). *)
Record Job : Type := mkJob {
  Type_ : string;
  JobTrackerName : string;
  TargetState : TrackerState;
  RetryCount : Z;
  Done_ : bool
}.

Definition NewETHBroadcast (name : string) (state : TrackerState) : Job :=
  {| Type_ := JobTypeETHBroadcast; JobTrackerName := name;
     TargetState := state; RetryCount := 0; Done_ := false |}.

Definition NewETHCheckFinality (name : string) (state : TrackerState) : Job :=
  {| Type_ := JobTypeETHCheckfinalty; JobTrackerName := name;
     TargetState := state; RetryCount := 0; Done_ := false |}.

Definition Job_GetJobID (j : Job) : JobID := (JobTrackerName j, TargetState j).
Definition IsDone (j : Job) : bool := Done_ j.

(** Modelled from the spec: the job store (not among the files at hand).
    [SaveJob] persists a job under its key and may overwrite; [GetJob]
    fails when the job is absent; [DeleteJob] removes the record and fails
    when the underlying store fails.  The failures of the underlying store
    are the keys it refuses to write or delete. *)
Record JobStore : Type := mkJobStore {
  jobs : gmap JobID Job;
  refused : gset JobID
}.

Definition ErrJobNotFound : error := errors_New "job not found".
Definition ErrStore : error := errors_New "store failure".

Definition SaveJob (js : JobStore) (job : Job) : JobStore * option error :=
  if bool_decide (Job_GetJobID job ∈ refused js) then (js, Some ErrStore)
  else ({| jobs := <[Job_GetJobID job := job]> (jobs js);
           refused := refused js |}, None).

Definition GetJob (js : JobStore) (id : JobID) : error + Job :=
  match jobs js !! id with
  | Some job => inr job
  | None => inl ErrJobNotFound
  end.

Definition DeleteJob (js : JobStore) (job : Job) : JobStore * option error :=
  if bool_decide (Job_GetJobID job ∈ refused js) then (js, Some ErrStore)
  else ({| jobs := delete (Job_GetJobID job) (jobs js);
           refused := refused js |}, None).

(** Jobs are stored under their own identity. *)
Definition consistent (js : JobStore) : Prop :=
  ∀ id job, jobs js !! id = Some job → Job_GetJobID job = id.

Definition emptyJobs : JobStore := {| jobs := ∅; refused := ∅ |}.

(** The job store of a tracker whose broadcasting and finality-check jobs
    have both been saved. *)
Definition bothJobs (name : string) : JobStore :=
  let js := (SaveJob emptyJobs (NewETHBroadcast name BusyBroadcasting)).1 in
  (SaveJob js (NewETHCheckFinality name BusyFinalizing)).1.

Section Handlers.

Variable Extra : Type.

(** Methods of the ethereum tracker declared outside the files at hand. *)
Variable CheckIfVoted : Tracker Extra → keys.Addr → bool.
Variable GetVotes : Tracker Extra → Z.
Variable Finalized_ : Tracker Extra → bool.        (* [tracker.Finalized()] *)

(** [string(tracker.State)] *)
Variable State_string : TrackerState → string.

(** The ethereum tracker store and its [Delete(name)], returning a boolean
    and an error (declared outside the files at hand). *)
Variable TrackerStore : Type.
Variable TrackerStore_Delete :
  TrackerStore → string → TrackerStore * (bool * option error).

(** [ethereum.TrackerCtx]: the tracker the context points to, the stores
    and the address of the current node. *)
Record TrackerCtx : Type := mkTrackerCtx {
  Tracker_ : Tracker Extra;
  JobStore_ : JobStore;
  TrackerStore_ : TrackerStore;
  CurrNodeAddr : keys.Addr
}.

Definition with_Tracker (c : TrackerCtx) (t : Tracker Extra) : TrackerCtx :=
  {| Tracker_ := t; JobStore_ := JobStore_ c;
     TrackerStore_ := TrackerStore_ c; CurrNodeAddr := CurrNodeAddr c |}.

Definition with_JobStore (c : TrackerCtx) (js : JobStore) : TrackerCtx :=
  {| Tracker_ := Tracker_ c; JobStore_ := js;
     TrackerStore_ := TrackerStore_ c; CurrNodeAddr := CurrNodeAddr c |}.

Definition with_TrackerStore (c : TrackerCtx) (ts : TrackerStore) : TrackerCtx :=
  {| Tracker_ := Tracker_ c; JobStore_ := JobStore_ c;
     TrackerStore_ := ts; CurrNodeAddr := CurrNodeAddr c |}.

(** A value of type [interface{}] handed to a handler. *)
Inductive any : Type :=
| AnyTrackerCtx (c : TrackerCtx)
| AnyOther.

(** A handler returns an error; what it did to the tracker and the stores
    the context refers to is the context returned next to it. *)
Definition handler : Type := any → any * option error.

(** [context, ok := ctx.(ethereum.TrackerCtx); if !ok { return ... }] *)
Definition casting (body : TrackerCtx → TrackerCtx * option error) : handler :=
  λ ctx,
    match ctx with
    | AnyTrackerCtx context =>
        let '(context', err) := body context in (AnyTrackerCtx context', err)
    | AnyOther => (ctx, Some (errors_New "error casting tracker context"))
    end.

Definition jobSerializationFailed (err : error) : error :=
  errors_Wrap (errors_New "job serialization failed err: ") (Error err).

(** [func Broadcasting(ctx interface{}) error] *)
Definition Broadcasting : handler := casting (λ context,
  let tracker := Tracker_ context in
  if negb (bool_decide (State tracker = New)) then
    let err := errors_New "Cannot Broadcast from the current state" in
    (context, Some (errors_Wrap err (State_string (State tracker))))
  else
    let tracker := with_State tracker BusyBroadcasting in
    let context := with_Tracker context tracker in
    let job := NewETHBroadcast (TrackerName tracker) (State tracker) in
    let '(js, err) := SaveJob (JobStore_ context) job in
    let context := with_JobStore context js in
    match err with
    | Some err => (context, Some (jobSerializationFailed err))
    | None => (context, None)
    end).

(** [func Finalizing(ctx interface{}) error] *)
Definition Finalizing : handler := casting (λ context,
  let tracker := Tracker_ context in
  if negb (bool_decide (State tracker = BusyBroadcasting)) then
    let err := errors_New "Cannot start Finalizing from the current state" in
    (context, Some (errors_Wrap err (State_string (State tracker))))
  else
    let voted := CheckIfVoted tracker (CurrNodeAddr context) in
    let finish (context : TrackerCtx) :=
      let numVotes := GetVotes tracker in
      if 0 <? numVotes
      then (with_Tracker context (with_State tracker BusyFinalizing), None)
      else (context, None) in
    if negb voted then
      match GetJob (JobStore_ context) (GetJobID tracker BusyBroadcasting) with
      | inl err => (context, Some (errors_Wrap err "failed to get job"))
      | inr bjob =>
          if IsDone bjob then
            let job := NewETHCheckFinality (TrackerName tracker) BusyFinalizing in
            let '(js, err) := SaveJob (JobStore_ context) job in
            let context := with_JobStore context js in
            match err with
            | Some err => (context, Some (jobSerializationFailed err))
            | None => finish context
            end
          else finish context
      end
    else finish context).

(** [func Finalization(ctx interface{}) error] *)
Definition Finalization : handler := casting (λ context,
  let tracker := Tracker_ context in
  if negb (bool_decide (State tracker = BusyFinalizing)) then
    let err := errors_New "cannot finalize from the current state" in
    (context, Some (errors_Wrap err (State_string (State tracker))))
  else
    let voted := CheckIfVoted tracker (CurrNodeAddr context) in
    let finish (context : TrackerCtx) :=
      if Finalized_ tracker
      then (with_Tracker context (with_State tracker Finalized), None)
      else (context, None) in
    if negb voted then
      let job := NewETHCheckFinality (TrackerName tracker) (State tracker) in
      let '(js, err) := SaveJob (JobStore_ context) job in
      let context := with_JobStore context js in
      match err with
      | Some err => (context, Some (jobSerializationFailed err))
      | None => finish context
      end
    else finish context).

(** [func Minting(ctx interface{}) error] *)
Definition Minting : handler := casting (λ context,
  let tracker := Tracker_ context in
  if negb (bool_decide (State tracker = Finalized)) then
    let err := errors_New "Cannot Mint from the current state" in
    (context, Some (errors_Wrap err (State_string (State tracker))))
  else
    if TaskCompleted tracker
    then (with_Tracker context (with_State tracker Minted), None)
    else (context, None)).

(** [func Cleanup(ctx interface{}) error] *)
Definition Cleanup : handler := casting (λ context,
  let tracker := Tracker_ context in
  (* Delete Broadcasting Job *)
  match GetJob (JobStore_ context) (GetJobID tracker BusyBroadcasting) with
  | inl err => (context, Some (errors_Wrap err "failed to get job"))
  | inr bjob =>
      let '(js, err) := DeleteJob (JobStore_ context) bjob in
      let context := with_JobStore context js in
      match err with
      | Some err => (context, Some err)
      | None =>
          (* Delete CheckFinality Job *)
          match GetJob (JobStore_ context) (GetJobID tracker BusyBroadcasting) with
          | inl err => (context, Some (errors_Wrap err "failed to get job"))
          | inr fjob =>
              let '(js, err) := DeleteJob (JobStore_ context) fjob in
              let context := with_JobStore context js in
              match err with
              | Some err => (context, Some err)
              | None =>
                  (* Delete Tracker *)
                  let '(ts, (res, err)) :=
                    TrackerStore_Delete (TrackerStore_ context)
                                        (TrackerName tracker) in
                  let context := with_TrackerStore context ts in
                  if bool_decide (err ≠ None) || negb res
                  then (context, err)
                  else (context, None)
              end
          end
      end
  end).

(** The numeric value of each state constant and the names of the
    transitions ([ethereum.BROADCASTING] and the others), declared outside
    the files at hand. *)
Variable code : TrackerState → transition.Status.
Variables BROADCASTING FINALIZING FINALIZE MINTING CLEANUP : string.

(** [func init()]: the construction of [EthEngine]. *)
Definition init : outcome (transition.Engine handler) :=
  let EthEngine :=
    transition.NewEngine
      [code New; code BusyBroadcasting; code BusyFinalizing;
       code Finalized; code Minted] in
  let EthEngine := transition.mustRegister EthEngine
    (transition.mkTransition BROADCASTING Broadcasting
       (code New) (code BusyBroadcasting)) in
  let EthEngine := transition.mustRegister EthEngine
    (transition.mkTransition FINALIZING Finalizing
       (code BusyBroadcasting) (code BusyFinalizing)) in
  let EthEngine := transition.mustRegister EthEngine
    (transition.mkTransition FINALIZE Finalization
       (code BusyFinalizing) (code Finalized)) in
  let EthEngine := transition.mustRegister EthEngine
    (transition.mkTransition MINTING Minting
       (code Finalized) (code Minted)) in
  let EthEngine := transition.mustRegister EthEngine
    (transition.mkTransition CLEANUP Cleanup
       (code Minted) 0) in
  EthEngine.

(** The lifecycle as statuses: the five states in order, then the deleted
    status. *)
Definition chain : list transition.Status := (code <$> lifecycle) ++ [0].

End Handlers.

(** A caller applying one handler after another: it goes on while no
    error is returned. *)
Definition andThen {Extra TrackerStore : Type}
    (r : any Extra TrackerStore * option error)
    (h : handler Extra TrackerStore) : any Extra TrackerStore * option error :=
  match r with
  | (ctx, None) => h ctx
  | (ctx, Some err) => (ctx, Some err)
  end.

(** A numbering of the states that keeps zero free: the position in the
    lifecycle, from one. *)
Definition ordinal (s : TrackerState) : transition.Status :=
  Z.of_nat (TrackerState_to_nat s) + 1.

(** A tracker store with a single deletion outcome, for running the
    handlers on concrete contexts. *)
Definition unitDelete (ts : unit) (name : string)
  : unit * (bool * option error) := (ts, (true, None)).

(** A context over that store for the tracker named t, in a given state
    and with a given job store. *)
Definition trackerAt (s : TrackerState) (js : JobStore) : TrackerCtx unit unit :=
  mkTrackerCtx unit unit (mkTracker s "t" true tt) js tt None.

(** A job store that refuses to write the broadcasting job of t. *)
Definition refusingJobs : JobStore :=
  {| jobs := ∅; refused := {[ ("t", BusyBroadcasting) ]} |}.

End event.

(* ===================================================================== *)
(** * keys: facts about the multi-signature aggregator *)
(* ===================================================================== *)

Module MultiSigFacts.
Import keys.

Lemma to_bytes_of_bytes (b : bytes) : json.to_bytes (json.of_bytes b) = Some b.
Proof. by destruct b. Qed.

Lemma unmarshalSignature_marshal (s : BTCSignature) :
  unmarshalSignature (marshalSignature s) = Some s.
Proof.
  destruct s as [i a sg]. unfold unmarshalSignature, marshalSignature.
  cbn. rewrite !to_bytes_of_bytes. reflexivity.
Qed.

Lemma mapM_decode_encode {A} (enc : A → json.doc) (dec : json.doc → option A) :
  (∀ x, dec (enc x) = Some x) → ∀ l, mapM dec (enc <$> l) = Some l.
Proof.
  intros Hrt l. apply mapM_Some. induction l; constructor; auto.
Qed.

Lemma to_slice_of_slice {A} (enc : A → json.doc) (dec : json.doc → option A) :
  (∀ x, dec (enc x) = Some x) →
  ∀ s, json.to_slice dec (json.of_slice enc s) = Some s.
Proof.
  intros Hrt [l|]; cbn; [|done]. by rewrite mapM_decode_encode.
Qed.

Lemma unmarshal_marshal (m m0 : BTCMultiSig) :
  unmarshal (marshal m) m0 = Some m.
Proof.
  destruct m as [msg th sg ss]. unfold unmarshal, marshal. cbn.
  rewrite to_bytes_of_bytes. cbn.
  rewrite (to_slice_of_slice _ _ to_bytes_of_bytes). cbn.
  rewrite (to_slice_of_slice _ _ unmarshalSignature_marshal). reflexivity.
Qed.

Lemma store_in_range {A} (l : list A) (i : nat) (x : A) :
  (i < length l)%nat →
  store (Some l) (Z.of_nat i) x = Some (Some (<[i := x]> l)).
Proof.
  intros Hi. unfold store, len. cbn.
  rewrite decide_True by lia. by rewrite Nat2Z.id.
Qed.

(** Placing the signed items of a run of slots [l], which starts at slot
    [off] and whose signed items carry their own slot number. *)
Lemma place_signed (n : nat) (l : list BTCSignature) :
  ∀ (off : nat) (slots : list BTCSignature),
    length slots = n →
    (∀ j s, l !! j = Some s → signed s = true →
            Index s = Z.of_nat (off + j) ∧ (off + j < n)%nat) →
    ∃ slots',
      place (Some slots) (filter (λ item, signed item = true) l) = Some (Some slots')
      ∧ length slots' = n
      ∧ ∀ i : nat, slots' !! i =
          match l !! (i - off)%nat with
          | Some s => if bool_decide (off ≤ i)%nat && signed s then Some s
                      else slots !! i
          | None => slots !! i
          end.
Proof.
  induction l as [|a l IH]; intros off slots Hlen Hwf.
  - exists slots. split; [done|]. split; [done|]. intros i. by rewrite lookup_nil.
  - destruct (signed a) eqn:Ha.
    + rewrite filter_cons_True by done. cbn [place].
      destruct (Hwf 0%nat a eq_refl Ha) as [Hidx Hlt].
      rewrite Nat.add_0_r in Hidx, Hlt. rewrite Hidx.
      rewrite store_in_range by lia.
      destruct (IH (S off) (<[off := a]> slots)) as (slots' & Hp & Hl & Hget).
      { by rewrite length_insert. }
      { intros j s Hj Hs. specialize (Hwf (S j) s Hj Hs).
        replace (S off + j)%nat with (off + S j)%nat by lia. exact Hwf. }
      exists slots'. split; [done|]. split; [done|]. intros i. rewrite Hget.
      destruct (decide (i = off)) as [->|Hne].
      * rewrite Nat.sub_diag. cbn.
        replace (off - S off)%nat with 0%nat by lia.
        rewrite (bool_decide_eq_false_2 (S off ≤ off)%nat) by lia.
        rewrite (bool_decide_eq_true_2 (off ≤ off)%nat) by lia.
        rewrite Ha. cbn. rewrite list_lookup_insert_eq by lia.
        by destruct (l !! 0%nat).
      * rewrite list_lookup_insert_ne by done.
        destruct (decide (off < i)%nat) as [Hlt'|Hge].
        -- replace (i - off)%nat with (S (i - S off)) by lia. cbn.
           destruct (l !! (i - S off)%nat); [|done].
           by rewrite !bool_decide_eq_true_2 by lia.
        -- replace (i - S off)%nat with 0%nat by lia.
           replace (i - off)%nat with 0%nat by lia. cbn.
           rewrite !bool_decide_eq_false_2 by lia. cbn.
           by destruct (l !! 0%nat).
    + rewrite filter_cons_False by (rewrite Ha; done).
      destruct (IH (S off) slots) as (slots' & Hp & Hl & Hget); [done| |].
      { intros j s Hj Hs. specialize (Hwf (S j) s Hj Hs).
        replace (S off + j)%nat with (off + S j)%nat by lia. exact Hwf. }
      exists slots'. split; [done|]. split; [done|]. intros i. rewrite Hget.
      destruct (decide (off < i)%nat) as [Hlt'|Hge].
      * replace (i - off)%nat with (S (i - S off)) by lia. cbn.
        destruct (l !! (i - S off)%nat); [|done].
        by rewrite !bool_decide_eq_true_2 by lia.
      * replace (i - S off)%nat with 0%nat by lia.
        destruct (decide (i = off)) as [->|Hne].
        -- rewrite Nat.sub_diag. cbn. rewrite Ha, andb_false_r.
           rewrite bool_decide_eq_false_2 by lia. cbn. by destruct (l !! 0%nat).
        -- replace (i - off)%nat with 0%nat by lia. cbn.
           rewrite !bool_decide_eq_false_2 by lia. cbn. by destruct (l !! 0%nat).
Qed.

Lemma index_Some_lookup {A} (s : slice A) (i : nat) :
  index s (Z.of_nat i) = elems s !! i.
Proof. unfold index. rewrite decide_True by lia. by rewrite Nat2Z.id. Qed.

Lemma index_in_range {A} (s : slice A) (i : Z) :
  0 <= i < len s → ∃ x, index s i = Some x.
Proof.
  intros Hi. unfold index. rewrite decide_True by lia.
  apply lookup_lt_is_Some_2. unfold len in Hi. lia.
Qed.

Lemma index_out_of_range {A} (s : slice A) (i : Z) :
  i < 0 ∨ len s <= i → index s i = None.
Proof.
  intros Hi. unfold index. case_decide; [|done].
  apply lookup_ge_None_2. unfold len in Hi. lia.
Qed.

Lemma place_len (items : list BTCSignature) :
  ∀ slots r, place slots items = Some r → len r = len slots.
Proof.
  induction items as [|item items IH]; intros slots r H; cbn in H.
  - by simplify_eq.
  - destruct (store slots (Index item) item) as [slots1|] eqn:E; [|done].
    rewrite (IH _ _ H). unfold store in E. case_decide; [|done]. simplify_eq.
    unfold len. cbn. by rewrite length_insert.
Qed.

(** [FromBytes] establishes the shape. *)
Lemma FromBytes_slot_per_signer (m0 m' : BTCMultiSig) (b : json.doc) :
  FromBytes m0 b = Done (m', None) → slot_per_signer m'.
Proof.
  unfold FromBytes, slot_per_signer. intros H.
  destruct (unmarshal b m0) as [m1|]; [|done].
  destruct (place _ _) as [slots|] eqn:E; [|done]. simplify_eq.
  cbn [Signatures Signers with_Signatures]. rewrite (place_len _ _ _ E).
  unfold make, len at 1. change (elems (Some ?l)) with l.
  rewrite length_replicate. unfold len. lia.
Qed.

(** C6.  Round trip.  For a multi-signature whose signed slots carry
    their own index (and belong to a signer), decoding with [FromBytes] what
    [Bytes] encoded succeeds, whatever the receiver held before; the result
    has the same message, threshold and signers, one slot per signer, the
    signed slots of the original at their own position with the same
    index, address and signature bytes, and the zero value in every other
    slot: a slot is signed after the round trip exactly when it was
    before. *)
Theorem FromBytes_Bytes_roundtrip (m m0 : BTCMultiSig) :
  carries_index m →
  ∃ m',
    FromBytes m0 (Bytes m) = Done (m', None)
    ∧ Msg m' = Msg m ∧ M m' = M m ∧ Signers m' = Signers m
    ∧ len (Signatures m') = len (Signers m)
    ∧ (∀ i, 0 <= i < len (Signers m) →
            index (Signatures m') i = Some (slot m i))
    ∧ (∀ i s, 0 <= i < len (Signers m) →
            index (Signatures m') i = Some s →
            (signed s = true ↔
             ∃ s0, index (Signatures m) i = Some s0 ∧ signed s0 = true ∧ s = s0)).
Proof.
  intros Hwf. unfold FromBytes, Bytes. rewrite unmarshal_marshal.
  cbn [Signatures Signers with_Signatures elems default].
  destruct (place_signed (length (elems (Signers m))) (elems (Signatures m)) 0
              (replicate (length (elems (Signers m))) zeroSignature))
    as (slots' & Hp & Hl & Hget).
  { by rewrite length_replicate. }
  { intros j s Hj Hs. destruct (Hwf j s Hj Hs) as [Hi Hlt].
    unfold len in Hlt. split; [done | lia]. }
  unfold make, id.
  replace (Z.to_nat (len (Signers m))) with (length (elems (Signers m)))
    by (unfold len; lia).
  rewrite Hp.
  eexists. split; [reflexivity|]. cbn.
  assert (Hslot : ∀ i, 0 <= i < len (Signers m) →
            index (Some slots') i = Some (slot m i)).
  { intros i Hi. unfold slot. destruct (Z_of_nat_complete i) as [k ->]; [lia|].
    rewrite !index_Some_lookup. cbn [elems default]. rewrite Hget.
    rewrite Nat.sub_0_r. rewrite bool_decide_eq_true_2 by lia. cbn.
    unfold len in Hi.
    destruct (elems (Signatures m) !! k) as [s|]; [destruct (signed s); [done|]|];
      by rewrite lookup_replicate_2 by lia. }
  repeat split; try done.
  - unfold len. cbn. by rewrite Hl.
  - intros Hs. rewrite (Hslot i H) in H0. injection H0 as <-.
    unfold slot in *. destruct (index (Signatures m) i) as [s0|]; [|done].
    destruct (signed s0) eqn:E; [|done]. by exists s0.
  - intros (s0 & H1 & H2 & ->). done.
Qed.

(** AddSignature touches no field but [Signatures]. *)
Lemma AddSignature_frame (m m' : BTCMultiSig) (s : BTCSignature) (e : option error) :
  AddSignature m s = Done (m', e) →
  Msg m' = Msg m ∧ M m' = M m ∧ Signers m' = Signers m.
Proof.
  unfold AddSignature. intros H.
  destruct (index (Signers m) (Index s)); [|done].
  destruct (negb _); [by simplify_eq|].
  destruct (store _ _ _); by simplify_eq.
Qed.

Lemma AddSignatures_frame (ss : list BTCSignature) :
  ∀ m m', AddSignatures m ss = Done m' →
    Msg m' = Msg m ∧ M m' = M m ∧ Signers m' = Signers m.
Proof.
  induction ss as [|s ss IH]; intros m m' H; cbn in H.
  - by simplify_eq.
  - destruct (AddSignature m s) as [[m1 e]|] eqn:E; [|done].
    destruct (AddSignature_frame _ _ _ _ E) as (E1 & E2 & E3).
    destruct (IH _ _ H) as (F1 & F2 & F3). by rewrite F1, F2, F3.
Qed.

(** The shape is established by the constructor and kept by
    [AddSignature]. *)
Lemma NewBTCMultiSig_slot_per_signer (msg : bytes) (m : Z) (signers : slice Addr)
    (ms : BTCMultiSig) :
  NewBTCMultiSig msg m signers = inr ms → slot_per_signer ms.
Proof.
  unfold NewBTCMultiSig. destruct (is_nil signers); [done|].
  destruct (_ || _); [done|]. intros [= <-].
  unfold slot_per_signer, make. cbn [Signatures Signers].
  unfold len at 1. change (elems (Some ?l)) with l.
  rewrite length_replicate. unfold len. lia.
Qed.

Lemma AddSignature_slot_per_signer (m m' : BTCMultiSig) (s : BTCSignature)
    (e : option error) :
  AddSignature m s = Done (m', e) → slot_per_signer m → slot_per_signer m'.
Proof.
  unfold AddSignature, slot_per_signer. intros H Hm.
  destruct (index (Signers m) (Index s)); [|done].
  destruct (negb _); [by simplify_eq|].
  unfold store in H. case_decide; [|done]. simplify_eq.
  cbn [Signatures Signers with_Signatures]. rewrite <- Hm.
  unfold len. cbn. by rewrite length_insert.
Qed.

(** C5.  [Address()] does not depend on the signatures.  For a value
    constructed by [NewBTCMultiSig msg m signers], attaching any two
    sequences of signatures (any set, any order) leaves the address equal
    to the address of the fresh value, which is the hash of the encoding
    of message, threshold and signers with no signature. *)
Theorem Address_independent_of_signatures
    (Hash : json.doc → Addr) (msg : bytes) (m : Z) (signers : slice Addr)
    (fresh : BTCMultiSig) (ss1 ss2 : list BTCSignature) (m1 m2 : BTCMultiSig) :
  NewBTCMultiSig msg m signers = inr fresh →
  AddSignatures fresh ss1 = Done m1 →
  AddSignatures fresh ss2 = Done m2 →
  Address Hash m1 = Address Hash fresh
  ∧ Address Hash m2 = Address Hash m1
  ∧ Address Hash fresh =
      Hash (marshal {| Msg := msg; M := m; Signers := signers;
                       Signatures := Some [] |}).
Proof.
  intros Hnew H1 H2.
  destruct (AddSignatures_frame _ _ _ H1) as (E1 & E2 & E3).
  destruct (AddSignatures_frame _ _ _ H2) as (F1 & F2 & F3).
  unfold Address, Bytes. cbn. rewrite E1, E2, E3, F1, F2, F3.
  repeat split; try done.
  unfold NewBTCMultiSig in Hnew. destruct (is_nil signers); [done|].
  destruct (_ || _); [done|]. by simplify_eq.
Qed.

Lemma NewBTCMultiSig_nil (msg : bytes) (m : Z) :
  NewBTCMultiSig msg m None = inl ErrMissSigners.
Proof. reflexivity. Qed.

Lemma NewBTCMultiSig_bad_threshold (msg : bytes) (m : Z) (l : list Addr) :
  m < 0 ∨ len (Some l) < m →
  NewBTCMultiSig msg m (Some l) = inl ErrInvalidThreshold.
Proof.
  intros H. unfold NewBTCMultiSig. cbn [is_nil].
  destruct (m <? 0) eqn:E1; [done|]. apply Z.ltb_ge in E1.
  destruct (len (Some l) <? m) eqn:E2; [done|]. apply Z.ltb_ge in E2. lia.
Qed.

Lemma NewBTCMultiSig_ok (msg : bytes) (m : Z) (l : list Addr) :
  0 <= m <= len (Some l) →
  NewBTCMultiSig msg m (Some l) =
    inr {| Msg := msg; M := m; Signers := Some l;
           Signatures := Some (replicate (length l) zeroSignature) |}.
Proof.
  intros H. unfold NewBTCMultiSig, make. cbn [is_nil].
  destruct (m <? 0) eqn:E1; [apply Z.ltb_lt in E1; lia|].
  destruct (len (Some l) <? m) eqn:E2; [apply Z.ltb_lt in E2; lia|].
  cbn [orb]. unfold len. cbn [elems default]. by rewrite Nat2Z.id.
Qed.

(** C7, as amended.  [NewBTCMultiSig] fails with the missing-signers
    error exactly when [signers] is nil; it fails with the
    invalid-threshold error exactly when [signers] is not nil and [m < 0]
    or [m > len(signers)]; otherwise it returns the value with message
    [msg], threshold [m], the given signers and one zero signature slot per
    signer.  An empty, non-nil signer list is not missing signers. *)
Theorem NewBTCMultiSig_spec (msg : bytes) (m : Z) (signers : slice Addr) :
  (NewBTCMultiSig msg m signers = inl ErrMissSigners ↔ signers = None)
  ∧ (NewBTCMultiSig msg m signers = inl ErrInvalidThreshold ↔
       signers ≠ None ∧ (m < 0 ∨ len signers < m))
  ∧ (∀ ms, NewBTCMultiSig msg m signers = inr ms ↔
       signers ≠ None ∧ 0 <= m <= len signers
       ∧ ms = {| Msg := msg; M := m; Signers := signers;
                 Signatures := Some (replicate (length (elems signers))
                                               zeroSignature) |}).
Proof.
  destruct signers as [l|].
  - destruct (decide (m < 0 ∨ len (Some l) < m)) as [Hbad|Hok].
    + rewrite NewBTCMultiSig_bad_threshold by done.
      unfold ErrMissSigners, ErrInvalidThreshold.
      repeat split; intros; intuition (try discriminate; try lia).
    + rewrite NewBTCMultiSig_ok by lia.
      unfold ErrMissSigners, ErrInvalidThreshold.
      change (elems (Some l)) with l.
      repeat split; intros; intuition (try discriminate; try lia; try congruence).
  - rewrite NewBTCMultiSig_nil. unfold ErrMissSigners, ErrInvalidThreshold.
    repeat split; intros; intuition (try discriminate; try congruence).
Qed.

(** C7, counterexample.  An empty, non-nil signer list with threshold 0
    is accepted: no missing-signers error. *)
Lemma NewBTCMultiSig_accepts_empty_signers :
  NewBTCMultiSig (Some []) 0 (Some []) =
    inr {| Msg := Some []; M := 0; Signers := Some []; Signatures := Some [] |}.
Proof. reflexivity. Qed.

(** C8, as amended.  For every value and every signature whose index is
    within the signers: [AddSignature] returns the unexpected-signer error
    when the address differs from the recorded signer, and then the
    receiver (its [Signatures] included) is unchanged; when the address
    equals the recorded signer and the index is also within the signature
    slots (as it is in every value with a slot per signer), it returns no
    error and stores the signature at slot [Index], changing no other slot
    and no other field; when the address equals the recorded signer and
    there is no slot at the index, it panics. *)
Theorem AddSignature_spec (m : BTCMultiSig) (s : BTCSignature) :
  0 <= Index s < len (Signers m) →
  ∃ signer,
    index (Signers m) (Index s) = Some signer
    ∧ (elems (Address_ s) ≠ elems signer →
         AddSignature m s = Done (m, Some ErrNotExpectedSigner))
    ∧ (elems (Address_ s) = elems signer →
         Index s < len (Signatures m) →
         ∃ m', AddSignature m s = Done (m', None)
               ∧ index (Signatures m') (Index s) = Some s
               ∧ (∀ j, j ≠ Index s →
                       index (Signatures m') j = index (Signatures m) j)
               ∧ Msg m' = Msg m ∧ M m' = M m ∧ Signers m' = Signers m)
    ∧ (elems (Address_ s) = elems signer →
         len (Signatures m) <= Index s →
         AddSignature m s = Panic).
Proof.
  intros Hi. destruct (index_in_range _ _ Hi) as [signer Hs].
  exists signer. split; [done|]. unfold AddSignature. rewrite Hs.
  split; [|split].
  - intros Hne. unfold bytes_Equal. by rewrite bool_decide_eq_false_2.
  - intros Heq Hlen. unfold bytes_Equal. rewrite bool_decide_eq_true_2 by done.
    cbn [negb]. unfold store. rewrite decide_True by lia.
    eexists. split; [reflexivity|]. cbn [Signatures with_Signatures Msg M Signers].
    repeat split.
    + unfold index. rewrite decide_True by lia. cbn [elems default].
      apply list_lookup_insert_eq. unfold len in *. lia.
    + intros j Hj. unfold index. case_decide; [|done]. cbn [elems default].
      apply list_lookup_insert_ne. lia.
  - intros Heq Hlen. unfold bytes_Equal. rewrite bool_decide_eq_true_2 by done.
    cbn [negb]. unfold store. by rewrite decide_False by lia.
Qed.

(** C8, counterexample.  On a value with one signer and no signature slot,
    a signature with index 0 and the signer's own address is within the
    signers and matches, yet [AddSignature] panics. *)
Lemma AddSignature_panics_without_slot :
  0 <= Index (sigOf 0 signerA) < len (Signers noSlots)
  ∧ index (Signers noSlots) (Index (sigOf 0 signerA))
    = Some (Address_ (sigOf 0 signerA))
  ∧ AddSignature noSlots (sigOf 0 signerA) = Panic.
Proof. split; [unfold len; cbn; lia|]. split; reflexivity. Qed.

(** C10.  [AddSignature] panics, rather than returning an error, on
    every signature whose index is negative or not below the number of
    signers. *)
Theorem AddSignature_panics_out_of_range (m : BTCMultiSig) (s : BTCSignature) :
  Index s < 0 ∨ len (Signers m) <= Index s →
  AddSignature m s = Panic.
Proof.
  intros Hi. unfold AddSignature. by rewrite index_out_of_range.
Qed.

Lemma Address_independent_of_signatures_witness :
  let ss1 := [sigOf 2 signerC; sigOf 0 signerA; sigOf 1 signerB] in
  let ss2 := [sigOf 0 signerA; sigOf 1 signerB; sigOf 2 signerC] in
  ∃ m1 m2,
    NewBTCMultiSig (Msg threeSigners) 2 (Signers threeSigners) = inr threeSigners
    ∧ AddSignatures threeSigners ss1 = Done m1
    ∧ AddSignatures threeSigners ss2 = Done m2
    ∧ Address textHash m1 = Address textHash threeSigners
    ∧ Address textHash m2 = Address textHash m1.
Proof.
  intros ss1 ss2.
  assert (H0 : NewBTCMultiSig (Msg threeSigners) 2 (Signers threeSigners)
               = inr threeSigners) by reflexivity.
  destruct (AddSignatures threeSigners ss1) as [m1|] eqn:E1; [|discriminate E1].
  destruct (AddSignatures threeSigners ss2) as [m2|] eqn:E2; [|discriminate E2].
  exists m1, m2.
  destruct (Address_independent_of_signatures textHash _ _ _ _ ss1 ss2 m1 m2
              H0 E1 E2) as (A1 & A2 & _).
  repeat split; assumption.
Defined.

Lemma NewBTCMultiSig_spec_witness :
  NewBTCMultiSig None 4 (Signers threeSigners) = inl ErrInvalidThreshold
  ∧ NewBTCMultiSig None 0 None = inl ErrMissSigners.
Proof.
  split.
  - apply (NewBTCMultiSig_spec None 4 (Signers threeSigners)).
    split; [discriminate | right; unfold len; cbn; lia].
  - apply (NewBTCMultiSig_spec None 0 None). reflexivity.
Defined.

Lemma FromBytes_Bytes_roundtrip_witness :
  carries_index twoOfFive
  ∧ ∃ m', FromBytes threeSigners (Bytes twoOfFive) = Done (m', None)
          ∧ Signatures m' = Signatures twoOfFive.
Proof.
  assert (Hwf : carries_index twoOfFive).
  { intros i s Hi Hs.
    do 5 (destruct i as [|i];
          [cbn in Hi; simplify_eq;
           first [discriminate Hs | split; [reflexivity | vm_compute; reflexivity]]|]).
    discriminate Hi. }
  split; [exact Hwf|].
  destruct (FromBytes_Bytes_roundtrip twoOfFive threeSigners Hwf)
    as (m' & Hf & _).
  exists m'. split; [exact Hf|].
  vm_compute in Hf. by simplify_eq.
Defined.

Lemma AddSignature_spec_witness :
  0 <= Index (sigOf 1 signerB) < len (Signers threeSigners)
  ∧ ∃ m', AddSignature threeSigners (sigOf 1 signerB) = Done (m', None)
          ∧ index (Signatures m') 1 = Some (sigOf 1 signerB).
Proof.
  assert (Hi : 0 <= Index (sigOf 1 signerB) < len (Signers threeSigners))
    by (unfold len; cbn; lia).
  split; [exact Hi|].
  destruct (AddSignature_spec threeSigners (sigOf 1 signerB) Hi)
    as (signer & Hs & _ & Hok & _).
  vm_compute in Hs. simplify_eq.
  destruct (Hok eq_refl eq_refl) as (m' & H1 & H2 & _).
  exists m'. split; assumption.
Defined.

Lemma AddSignature_panics_out_of_range_witness :
  (Index (sigOf 3 signerA) < 0
   ∨ len (Signers threeSigners) <= Index (sigOf 3 signerA))
  ∧ AddSignature threeSigners (sigOf 3 signerA) = Panic.
Proof.
  assert (Hi : Index (sigOf 3 signerA) < 0
               ∨ len (Signers threeSigners) <= Index (sigOf 3 signerA))
    by (right; unfold len; cbn; lia).
  split; [exact Hi|].
  exact (AddSignature_panics_out_of_range threeSigners (sigOf 3 signerA) Hi).
Defined.

Lemma bytes_Equal_true (a b : bytes) : bytes_Equal a b = true ↔ elems a = elems b.
Proof. unfold bytes_Equal. apply bool_decide_eq_true. Qed.

Lemma bytes_Equal_false (a b : bytes) : bytes_Equal a b = false ↔ elems a ≠ elems b.
Proof. unfold bytes_Equal. apply bool_decide_eq_false. Qed.

Lemma signerLoop_Some (addr : Addr) (signers : list Addr) :
  ∀ i0 i, signerLoop addr signers i0 = Some i →
    ∃ (k : nat) (a : Addr),
      i = i0 + Z.of_nat k ∧ signers !! k = Some a ∧ elems addr = elems a
      ∧ ∀ (j : nat) a', (j < k)%nat → signers !! j = Some a' →
                        elems addr ≠ elems a'.
Proof.
  induction signers as [|a signers IH]; intros i0 i H; cbn in H; [done|].
  destruct (bytes_Equal addr a) eqn:E.
  - injection H as <-. exists 0%nat, a. split; [lia|]. split; [done|].
    split; [by apply bytes_Equal_true|]. intros j a' Hj. lia.
  - destruct (IH _ _ H) as (k & a0 & -> & Hk & Heq & Hfirst).
    exists (S k), a0. split; [lia|]. split; [done|]. split; [done|].
    intros [|j] a' Hj Hl.
    + cbn in Hl. injection Hl as <-. by apply bytes_Equal_false.
    + apply (Hfirst j a'); [lia | done].
Qed.

Lemma signerLoop_None (addr : Addr) (signers : list Addr) :
  ∀ i0, signerLoop addr signers i0 = None ↔
        ∀ a, a ∈ signers → elems addr ≠ elems a.
Proof.
  induction signers as [|a signers IH]; intros i0; cbn.
  - split; [|done]. intros _ a Ha. by apply elem_of_nil in Ha.
  - destruct (bytes_Equal addr a) eqn:E.
    + split; [done|]. intros H. apply bytes_Equal_true in E.
      destruct (H a); [apply elem_of_cons; by left | done].
    + rewrite IH. apply bytes_Equal_false in E. split.
      * intros H a' Ha'. apply elem_of_cons in Ha' as [->|Ha']; [done|by apply H].
      * intros H a' Ha'. apply H. apply elem_of_cons. by right.
Qed.

(** X1.  [GetSignerIndex] returns the position of the first signer whose
    bytes equal the address, with a nil error; when no signer matches it
    returns index 0 together with the error address not found, so the
    index alone does not tell a miss from a hit at position 0. *)
Theorem GetSignerIndex_first_match (m : BTCMultiSig) (addr : Addr) :
  match GetSignerIndex m addr with
  | (i, None) =>
      ∃ a, index (Signers m) i = Some a ∧ elems addr = elems a
           ∧ ∀ j a', 0 <= j < i → index (Signers m) j = Some a' →
                     elems addr ≠ elems a'
  | (i, Some e) =>
      i = 0 ∧ e = errors_New "address not found"
      ∧ ∀ a, a ∈ elems (Signers m) → elems addr ≠ elems a
  end.
Proof.
  unfold GetSignerIndex.
  destruct (signerLoop addr (elems (Signers m)) 0) as [i|] eqn:E.
  - destruct (signerLoop_Some _ _ _ _ E) as (k & a & -> & Hk & Heq & Hfirst).
    exists a. rewrite Z.add_0_l. rewrite index_Some_lookup.
    split; [done|]. split; [done|]. intros j a' Hj Hl.
    destruct (Z_of_nat_complete j) as [j' ->]; [lia|].
    rewrite index_Some_lookup in Hl. apply (Hfirst j' a'); [lia | done].
  - split; [done|]. split; [done|]. by apply (signerLoop_None _ _ 0).
Qed.

Lemma GetSignerIndex_in_range (m : BTCMultiSig) (addr : Addr) (i : Z) :
  GetSignerIndex m addr = (i, None) →
  0 <= i < len (Signers m)
  ∧ ∃ a, index (Signers m) i = Some a ∧ elems addr = elems a.
Proof.
  unfold GetSignerIndex.
  destruct (signerLoop addr (elems (Signers m)) 0) as [i'|] eqn:E; [|done].
  intros [= <-].
  destruct (signerLoop_Some _ _ _ _ E) as (k & a & -> & Hk & Heq & _).
  rewrite Z.add_0_l. split.
  - apply lookup_lt_Some in Hk. unfold len. lia.
  - exists a. by rewrite index_Some_lookup.
Qed.

(** X2.  On an aggregator with one signature slot per signer, a signature
    whose index is the one [GetSignerIndex] gives for its address is
    accepted by [AddSignature]: no panic, nil error, the signature sits in
    that slot, and the signers and the slot count are as before. *)
Theorem AddSignature_at_GetSignerIndex
    (m : BTCMultiSig) (addr : Addr) (sg : bytes) (i : Z) :
  slot_per_signer m →
  GetSignerIndex m addr = (i, None) →
  ∃ m',
    AddSignature m {| Index := i; Address_ := addr; Sign := sg |} = Done (m', None)
    ∧ index (Signatures m') i = Some {| Index := i; Address_ := addr; Sign := sg |}
    ∧ Signers m' = Signers m ∧ slot_per_signer m'.
Proof.
  intros Hm Hg. destruct (GetSignerIndex_in_range _ _ _ Hg) as (Hi & a & Ha & Heq).
  unfold AddSignature. cbn [Index Address_]. rewrite Ha.
  rewrite (proj2 (bytes_Equal_true _ _) Heq). cbn [negb].
  unfold slot_per_signer in Hm. unfold store. rewrite decide_True by lia.
  eexists. split; [reflexivity|]. cbn [Signatures Signers with_Signatures].
  split; [|split; [done|]].
  - unfold index. rewrite decide_True by lia. cbn [elems default].
    apply list_lookup_insert_eq. unfold len in *. lia.
  - unfold slot_per_signer, len in *.
    cbn [Signatures Signers with_Signatures]. change (elems (Some ?l)) with l.
    by rewrite length_insert.
Qed.

(** X3.  On an aggregator with one signature slot per signer,
    [HasAddressSigned] does not panic: for a signer it reports whether the
    slot at the signer's first position holds a signature of nonzero
    length, and for any other address it reports false. *)
Theorem HasAddressSigned_reads_first_slot (m : BTCMultiSig) (addr : Addr) :
  slot_per_signer m →
  match GetSignerIndex m addr with
  | (i, None) =>
      ∃ item, index (Signatures m) i = Some item
              ∧ HasAddressSigned m addr = Done (negb (len (Sign item) =? 0))
  | (_, Some _) => HasAddressSigned m addr = Done false
  end.
Proof.
  intros Hm. pose proof (GetSignerIndex_in_range m addr) as Hr.
  unfold GetSignerIndex in *. unfold HasAddressSigned.
  destruct (signerLoop addr (elems (Signers m)) 0) as [i|] eqn:E.
  - destruct (Hr i eq_refl) as (Hi & _).
    assert ((len (Signers m) <? i) = false) as -> by lia.
    unfold slot_per_signer in Hm.
    destruct (index_in_range (Signatures m) i) as [item Hitem]; [lia|].
    exists item. split; [done|]. rewrite Hitem.
    by destruct (len (Sign item) =? 0).
  - assert ((len (Signers m) <? len (Signers m) + 100) = true) as -> by lia. done.
Qed.

(** The address is not among the signers: the answer is "no", whatever
    the signature slots are. *)
Lemma HasAddressSigned_unknown (m : BTCMultiSig) (addr : Addr) :
  (∀ a, a ∈ elems (Signers m) → elems addr ≠ elems a) →
  HasAddressSigned m addr = Done false.
Proof.
  intros H. unfold HasAddressSigned.
  rewrite (proj2 (signerLoop_None addr _ 0) H).
  assert ((len (Signers m) <? len (Signers m) + 100) = true) as -> by lia. done.
Qed.

Section Scatter.
Context {A B : Type}.
Variable keep : A → bool.
Variable idx : A → Z.
Variable val : A → B.
Variable filled : B → bool.
Variable zero : B.
Hypothesis filled_zero : filled zero = false.
Hypothesis filled_val : ∀ a, keep a = true → filled (val a) = true.

Lemma scatter_skip (l : list A) (temp : slice B) :
  (∀ a, a ∈ l → keep a = false) → scatter keep idx val temp l = Some temp.
Proof.
  induction l as [|a l IH]; intros H; cbn; [done|].
  rewrite (H a) by (apply elem_of_cons; by left).
  apply IH. intros a' Ha'. apply H. apply elem_of_cons. by right.
Qed.

Lemma filter_all_false {C : Type} (p : C → bool) (l : list C) :
  (∀ a, a ∈ l → p a = false) → filter (λ a, p a = true) l = [].
Proof.
  induction l as [|a l IH]; intros H; [done|].
  rewrite filter_cons_False.
  - apply IH. intros a' Ha'. apply H. apply elem_of_cons. by right.
  - rewrite (H a) by (apply elem_of_cons; by left). done.
Qed.

Lemma filter_replicate_zero (k : nat) :
  filter (λ b, filled b = true) (replicate k zero) = [].
Proof.
  apply filter_all_false. intros b Hb.
  apply elem_of_replicate in Hb as [-> _]. exact filled_zero.
Qed.

Lemma store_after (pre : list B) (x y : B) (rest : list B) :
  store (Some (pre ++ x :: rest)) (Z.of_nat (length pre)) y
  = Some (Some ((pre ++ [y]) ++ rest)).
Proof.
  unfold store, len. change (elems (Some ?l)) with l.
  rewrite decide_True by (rewrite length_app; cbn; lia).
  rewrite Nat2Z.id. rewrite insert_app_r_alt by lia.
  rewrite Nat.sub_diag. cbn. by rewrite <- app_assoc.
Qed.

(** Items that name their own position, from position [length pre] on,
    land in order: the filled values of the result are the values of the
    kept items. *)
Lemma scatter_in_order (l : list A) :
  ∀ (pre : list B) (k : nat),
    (∀ (j : nat) a, l !! j = Some a → keep a = true →
                    idx a = Z.of_nat (length pre + j) ∧ (j < k)%nat) →
    ∃ t', scatter keep idx val (Some (pre ++ replicate k zero)) l
            = Some (Some (pre ++ t'))
          ∧ length t' = k
          ∧ filter (λ b, filled b = true) t'
            = val <$> filter (λ a, keep a = true) l.
Proof.
  induction l as [|a l IH]; intros pre k Hwf.
  - exists (replicate k zero). split; [done|].
    split; [apply length_replicate | apply filter_replicate_zero].
  - cbn [scatter]. destruct (keep a) eqn:Ka.
    + destruct (Hwf 0%nat a eq_refl Ka) as [Hi Hk]. rewrite Nat.add_0_r in Hi.
      destruct k as [|k]; [lia|]. cbn [replicate]. rewrite Hi, store_after.
      destruct (IH (pre ++ [val a]) k) as (t' & Hs & Hl & Hf).
      { intros j a' Hj Ka'. destruct (Hwf (S j) a' Hj Ka') as [Hi' Hk'].
        rewrite length_app. cbn. split; [rewrite Hi'; f_equal; lia | lia]. }
      exists (val a :: t'). rewrite Hs. split; [by rewrite <- app_assoc|].
      split; [cbn; lia|]. rewrite filter_cons_True by (by apply filled_val).
      rewrite filter_cons_True by done. cbn. by rewrite Hf.
    + rewrite (filter_cons_False _ a) by (rewrite Ka; done).
      destruct k as [|k].
      * exists []. rewrite scatter_skip.
        -- split; [done|]. split; [done|]. rewrite (filter_all_false keep l); [done|].
           intros a' Ha'. apply list_elem_of_lookup in Ha' as [j Hj].
           destruct (keep a') eqn:Ka'; [|done].
           destruct (Hwf (S j) a' Hj Ka'). lia.
        -- intros a' Ha'. apply list_elem_of_lookup in Ha' as [j Hj].
           destruct (keep a') eqn:Ka'; [|done].
           destruct (Hwf (S j) a' Hj Ka'). lia.
      * cbn [replicate].
        replace (pre ++ zero :: replicate k zero)
          with ((pre ++ [zero]) ++ replicate k zero) by (by rewrite <- app_assoc).
        destruct (IH (pre ++ [zero]) k) as (t' & Hs & Hl & Hf).
        { intros j a' Hj Ka'. destruct (Hwf (S j) a' Hj Ka') as [Hi' Hk'].
          rewrite length_app. cbn. split; [rewrite Hi'; f_equal; lia | lia]. }
        exists (zero :: t'). rewrite Hs. split; [by rewrite <- app_assoc|].
        split; [cbn; lia|].
        rewrite filter_cons_False by (rewrite filled_zero; done). exact Hf.
Qed.

(** A kept item that names a position outside the slots makes the loop
    panic. *)
Lemma scatter_out_of_range (l : list A) :
  ∀ (temp : list B) (a : A),
    a ∈ l → keep a = true → ¬ (0 <= idx a < Z.of_nat (length temp)) →
    scatter keep idx val (Some temp) l = None.
Proof.
  induction l as [|a0 l IH]; intros temp a Ha Ka Hr.
  - by apply elem_of_nil in Ha.
  - cbn [scatter]. apply elem_of_cons in Ha as [<-|Ha].
    + rewrite Ka. unfold store, len. change (elems (Some ?l)) with l.
      by rewrite decide_False.
    + destruct (keep a0); [|by apply (IH temp a)].
      unfold store, len. change (elems (Some ?l)) with l.
      case_decide; [|done]. apply (IH _ a); [done|done|].
      by rewrite length_insert.
Qed.

End Scatter.

Lemma place_filter_scatter (l : list BTCSignature) :
  ∀ slots, place slots (filter (λ item, signed item = true) l)
           = scatter signed Index id slots l.
Proof.
  induction l as [|a l IH]; intros slots; [done|].
  cbn [scatter]. destruct (signed a) eqn:Sa.
  - rewrite filter_cons_True by done. cbn [place id].
    destruct (store slots (Index a) a); [apply IH | done].
  - rewrite filter_cons_False by (rewrite Sa; done). apply IH.
Qed.

Lemma orderLoop_scatter (l : list BTCSignature) :
  ∀ temp, orderLoop temp l = scatter nonempty Index Sign temp l.
Proof.
  induction l as [|a l IH]; intros temp; [done|].
  cbn [scatter orderLoop]. unfold nonempty at 1.
  destruct (len (Sign a) =? 0); cbn [negb]; [apply IH|].
  destruct (store temp (Index a) (Sign a)); [apply IH | done].
Qed.

Lemma nonempty_signed (s : BTCSignature) : nonempty s = true → signed s = true.
Proof. unfold nonempty, signed. by destruct (Sign s). Qed.

(** A successful [AddSignature] wrote slot [Index s] and nothing else. *)
Lemma AddSignature_Done_inv (m m' : BTCMultiSig) (s : BTCSignature) :
  AddSignature m s = Done (m', None) →
  0 <= Index s < len (Signatures m)
  ∧ m' = with_Signatures m
           (Some (<[Z.to_nat (Index s) := s]> (elems (Signatures m)))).
Proof.
  unfold AddSignature. intros H.
  destruct (index (Signers m) (Index s)); [|done].
  destruct (negb _); [done|]. unfold store in H.
  case_decide; [|done]. by simplify_eq.
Qed.

Lemma filter_insert_count {A : Type} (p : A → bool) (l : list A) :
  ∀ (i : nat) (old x : A),
    l !! i = Some old →
    (length (filter (λ a, p a = true) (<[i := x]> l))
       + (if p old then 1 else 0)
     = length (filter (λ a, p a = true) l) + (if p x then 1 else 0))%nat.
Proof.
  induction l as [|a l IH]; intros i old x Hl; [done|].
  destruct i as [|i]; cbn in Hl.
  - injection Hl as ->. cbn [insert list_insert].
    rewrite !filter_cons. destruct (p old), (p x);
      repeat first [rewrite decide_True by done | rewrite decide_False by done];
      cbn; lia.
  - cbn [insert list_insert]. change (list_insert i x l) with (<[i := x]> l).
    rewrite !filter_cons. specialize (IH i old x Hl).
    destruct (decide (p a = true)); cbn [length]; [|exact IH].
    rewrite !Nat.add_succ_l. f_equal. exact IH.
Qed.

(** X4.  A successful [AddSignature] overwrites one slot: the number of
    signed slots changes by what the new signature adds and the replaced
    one takes away, and adding a signed signature never turns a valid
    aggregator ([IsValid]) into an invalid one. *)
Theorem AddSignature_signedCount (m m' : BTCMultiSig) (s : BTCSignature) :
  AddSignature m s = Done (m', None) →
  ∃ old,
    index (Signatures m) (Index s) = Some old
    ∧ signedCount m' + (if signed old then 1 else 0)
      = signedCount m + (if signed s then 1 else 0)
    ∧ (signed s = true → IsValid m = true → IsValid m' = true).
Proof.
  intros H. destruct (AddSignature_Done_inv _ _ _ H) as [Hi ->].
  destruct (index_in_range (Signatures m) (Index s) Hi) as [old Hold].
  exists old. split; [done|].
  assert (Hcount : signedCount (with_Signatures m
                     (Some (<[Z.to_nat (Index s) := s]> (elems (Signatures m)))))
                   + (if signed old then 1 else 0)
                   = signedCount m + (if signed s then 1 else 0)).
  { unfold signedCount. cbn [Signatures with_Signatures].
    change (elems (Some ?l)) with l. unfold index in Hold.
    rewrite decide_True in Hold by lia.
    pose proof (filter_insert_count signed _ _ _ s Hold) as Hc.
    destruct (signed old), (signed s); lia. }
  split; [exact Hcount|]. intros Hs. unfold IsValid.
  fold (signedCount m). 
  fold (signedCount (with_Signatures m
          (Some (<[Z.to_nat (Index s) := s]> (elems (Signatures m)))))).
  cbn [M with_Signatures]. rewrite Hs in Hcount.
  destruct (signedCount m <? M m) eqn:E1; [done|]. intros _.
  apply Z.ltb_ge in E1.
  destruct (_ <? M m) eqn:E2; [|done]. apply Z.ltb_lt in E2.
  destruct (signed old); lia.
Qed.

Lemma filter_signed_replicate_zero (n : nat) :
  filter (λ item, signed item = true) (replicate n zeroSignature) = [].
Proof. by apply (filter_replicate_zero signed zeroSignature). Qed.

(** X5.  The aggregator [NewBTCMultiSig] returns has no signed slot, so it
    is valid exactly when its threshold is 0; [IsCancel] gives the same
    answer as [IsValid]. *)
Theorem fresh_IsValid_iff_zero_threshold
    (msg : bytes) (m : Z) (signers : slice Addr) (ms : BTCMultiSig) :
  NewBTCMultiSig msg m signers = inr ms →
  signedCount ms = 0
  ∧ (IsValid ms = true ↔ m = 0)
  ∧ IsCancel ms = IsValid ms.
Proof.
  unfold NewBTCMultiSig. destruct (is_nil signers); [done|].
  destruct (m <? 0) eqn:E1; [done|]. destruct (len signers <? m) eqn:E2; [done|].
  cbn [orb]. intros [= <-]. apply Z.ltb_ge in E1.
  assert (Hc : signedCount {| Msg := msg; M := m; Signers := signers;
                 Signatures := make zeroSignature (len signers) |} = 0).
  { unfold signedCount, make. cbn [Signatures]. change (elems (Some ?l)) with l.
    by rewrite filter_signed_replicate_zero. }
  split; [exact Hc|]. split; [|done].
  unfold IsValid. fold (signedCount {| Msg := msg; M := m; Signers := signers;
                 Signatures := make zeroSignature (len signers) |}).
  rewrite Hc. cbn [M]. destruct (0 <? m) eqn:E3.
  - apply Z.ltb_lt in E3. split; [done | lia].
  - apply Z.ltb_ge in E3. split; [lia | done].
Qed.

(** X6.  After a successful [AddSignature] of a signature filed under its
    signer's own index, [HasAddressSigned] for that signer reports whether
    the signature has nonzero length. *)
Theorem HasAddressSigned_after_AddSignature
    (m m' : BTCMultiSig) (s : BTCSignature) :
  slot_per_signer m →
  GetSignerIndex m (Address_ s) = (Index s, None) →
  AddSignature m s = Done (m', None) →
  HasAddressSigned m' (Address_ s) = Done (negb (len (Sign s) =? 0)).
Proof.
  intros Hm Hg Ha. destruct (AddSignature_Done_inv _ _ _ Ha) as [Hi ->].
  unfold GetSignerIndex in Hg. unfold HasAddressSigned.
  cbn [Signers Signatures with_Signatures].
  destruct (signerLoop (Address_ s) (elems (Signers m)) 0) as [i|]; [|done].
  injection Hg as ->. unfold slot_per_signer in Hm.
  assert ((len (Signers m) <? Index s) = false) as -> by lia.
  unfold index. rewrite decide_True by lia. change (elems (Some ?l)) with l.
  rewrite list_lookup_insert_eq by (unfold len in Hi; lia).
  by destruct (len (Sign s) =? 0).
Qed.

(** X7.  A successful [AddSignature] into one slot does not change what
    [HasAddressSigned] answers for a signer whose first position is
    another slot. *)
Theorem HasAddressSigned_other_slot
    (m m' : BTCMultiSig) (s : BTCSignature) (addr : Addr) (i : Z) :
  GetSignerIndex m addr = (i, None) →
  i ≠ Index s →
  AddSignature m s = Done (m', None) →
  HasAddressSigned m' addr = HasAddressSigned m addr.
Proof.
  intros Hg Hne Ha. destruct (AddSignature_Done_inv _ _ _ Ha) as [Hi ->].
  pose proof (GetSignerIndex_in_range _ _ _ Hg) as [Hr _].
  unfold GetSignerIndex in Hg. unfold HasAddressSigned.
  cbn [Signers Signatures with_Signatures].
  destruct (signerLoop addr (elems (Signers m)) 0) as [i'|]; [|done].
  injection Hg as ->. destruct (len (Signers m) <? i); [done|].
  unfold index. rewrite decide_True by lia. change (elems (Some ?l)) with l.
  rewrite list_lookup_insert_ne by lia. by rewrite decide_True by lia.
Qed.

Lemma filter_nonempty_bytes (l : list bytes) :
  filter (λ sig : bytes, len sig ≠ 0) l
  = filter (λ sig : bytes, negb (len sig =? 0) = true) l.
Proof.
  apply list_filter_iff. intros sig. destruct (len sig =? 0) eqn:E; cbn.
  - apply Z.eqb_eq in E. split; [done | discriminate].
  - apply Z.eqb_neq in E. done.
Qed.

(** X8.  When every signed slot holds a signature carrying the slot's own
    index, [GetSignaturesInOrder] does not panic and returns the
    signatures of nonzero length in slot order, that is in signer order,
    with the empty slots left out. *)
Theorem GetSignaturesInOrder_in_slot_order (m : BTCMultiSig) :
  carries_index m →
  GetSignaturesInOrder m
  = Done (Some (Sign <$> filter (λ s, nonempty s = true) (elems (Signatures m)))).
Proof.
  intros Hwf. unfold GetSignaturesInOrder. rewrite orderLoop_scatter.
  unfold make.
  destruct (scatter_in_order nonempty Index Sign (λ sig, negb (len sig =? 0))
              None eq_refl (λ a Ha, Ha) (elems (Signatures m)) []
              (Z.to_nat (len (Signers m))))
    as (t' & Hs & _ & Hf).
  { intros j a Hj Ka. destruct (Hwf j a Hj (nonempty_signed _ Ka)) as [Hi Hlt].
    split; [done | lia]. }
  cbn [app] in Hs.
  match goal with |- context [scatter ?a ?b ?c ?d ?e] =>
    replace (scatter a b c d e) with (Some (Some t')) by (symmetry; exact Hs)
  end.
  change (elems (Some ?l)) with l. do 2 f_equal.
  rewrite filter_nonempty_bytes. exact Hf.
Qed.

(** X9.  [FromBytes] trusts the index each encoded signature carries:
    decoding the encoding of an aggregator that holds a signed signature
    whose index is negative or not below the number of signers panics
    (index out of range) instead of returning an error. *)
Theorem FromBytes_panics_on_foreign_index
    (m m0 : BTCMultiSig) (i : nat) (s : BTCSignature) :
  elems (Signatures m) !! i = Some s → signed s = true →
  Index s < 0 ∨ len (Signers m) <= Index s →
  FromBytes m0 (Bytes m) = Panic.
Proof.
  intros Hl Hs Hr. unfold FromBytes, Bytes. rewrite unmarshal_marshal.
  cbn [Signatures Signers with_Signatures]. change (elems (Some ?l)) with l.
  rewrite place_filter_scatter. unfold make.
  rewrite (scatter_out_of_range signed Index id (elems (Signatures m)) _ s);
    [done | by apply list_elem_of_lookup_2 with i | done |].
  rewrite length_replicate. unfold len in *. lia.
Qed.

(** X10.  Whenever [Unmarshal] of what [Marshal] produced returns, it
    returns a nil error and an aggregator with the same message, threshold
    and signers, hence the same [Address]. *)
Theorem FromBytes_keeps_Address
    (Hash : json.doc → Addr) (m m0 m' : BTCMultiSig) (e : option error) :
  Unmarshal m0 (Marshal m).1 = Done (m', e) →
  e = None
  ∧ Msg m' = Msg m ∧ M m' = M m ∧ Signers m' = Signers m
  ∧ Address Hash m' = Address Hash m.
Proof.
  unfold Unmarshal, Marshal, FromBytes, Bytes. cbn [fst].
  rewrite unmarshal_marshal. intros H.
  destruct (place _ _) as [slots|]; [|done]. simplify_eq.
  split; [done|]. by repeat split.
Qed.

(** X11.  For an aggregator whose signed slots carry their own index, the
    encoding is a fixed point of decoding and encoding again: [Bytes] of
    the aggregator [FromBytes] rebuilds equals the [Bytes] it was rebuilt
    from. *)
Theorem Bytes_stable_through_round_trip (m m0 m' : BTCMultiSig) :
  carries_index m →
  FromBytes m0 (Bytes m) = Done (m', None) →
  Bytes m' = Bytes m.
Proof.
  intros Hwf H. unfold FromBytes, Bytes in H. rewrite unmarshal_marshal in H.
  cbn [Signatures Signers with_Signatures] in H.
  change (elems (Some ?l)) with l in H. rewrite place_filter_scatter in H.
  unfold make in H.
  destruct (scatter_in_order signed Index id signed zeroSignature eq_refl
              (λ a Ha, Ha) (elems (Signatures m)) []
              (Z.to_nat (len (Signers m))))
    as (t' & Hs & _ & Hf).
  { intros j a Hj Ka. destruct (Hwf j a Hj Ka) as [Hi Hlt]. split; [done | lia]. }
  cbn [app] in Hs. rewrite Hs in H. injection H as <-. unfold Bytes.
  cbn [Signatures with_Signatures Msg M Signers]. change (elems (Some ?l)) with l.
  rewrite Hf, list_fmap_id. reflexivity.
Qed.

Lemma threeSigners_slot_per_signer : slot_per_signer threeSigners.
Proof. reflexivity. Qed.

Lemma twoOfFive_carries_index : carries_index twoOfFive.
Proof.
  intros i s Hi Hs.
  do 5 (destruct i as [|i];
        [cbn in Hi; simplify_eq;
         first [discriminate Hs | split; [reflexivity | vm_compute; reflexivity]]|]).
  discriminate Hi.
Qed.

Lemma AddSignature_at_GetSignerIndex_witness :
  slot_per_signer threeSigners
  ∧ GetSignerIndex threeSigners signerB = (1, None)
  ∧ ∃ m', AddSignature threeSigners (sigOf 1 signerB) = Done (m', None)
          ∧ index (Signatures m') 1 = Some (sigOf 1 signerB).
Proof.
  assert (Hg : GetSignerIndex threeSigners signerB = (1, None))
    by (vm_compute; reflexivity).
  split; [exact threeSigners_slot_per_signer|]. split; [exact Hg|].
  destruct (AddSignature_at_GetSignerIndex threeSigners signerB
              (Some ["s"%byte; "g"%byte]) 1 threeSigners_slot_per_signer Hg)
    as (m' & H1 & H2 & _).
  exists m'. split; assumption.
Defined.

Lemma HasAddressSigned_reads_first_slot_witness :
  slot_per_signer twoOfFive
  ∧ GetSignerIndex twoOfFive signerD = (3, None)
  ∧ HasAddressSigned twoOfFive signerD = Done true.
Proof.
  assert (Hm : slot_per_signer twoOfFive) by reflexivity.
  assert (Hg : GetSignerIndex twoOfFive signerD = (3, None))
    by (vm_compute; reflexivity).
  split; [exact Hm|]. split; [exact Hg|].
  pose proof (HasAddressSigned_reads_first_slot twoOfFive signerD Hm) as H.
  rewrite Hg in H. destruct H as (item & Hitem & ->).
  vm_compute in Hitem. by simplify_eq.
Defined.

Lemma AddSignature_signedCount_witness :
  AddSignature twoOfFive (sigOf 0 signerA)
    = Done (with_Signatures twoOfFive
              (Some [sigOf 0 signerA; sigOf 1 signerB; zeroSignature;
                     sigOf 3 signerD; zeroSignature]), None)
  ∧ signedCount twoOfFive = 2
  ∧ signedCount (with_Signatures twoOfFive
              (Some [sigOf 0 signerA; sigOf 1 signerB; zeroSignature;
                     sigOf 3 signerD; zeroSignature])) = 3.
Proof.
  assert (Ha : AddSignature twoOfFive (sigOf 0 signerA)
    = Done (with_Signatures twoOfFive
              (Some [sigOf 0 signerA; sigOf 1 signerB; zeroSignature;
                     sigOf 3 signerD; zeroSignature]), None))
    by (vm_compute; reflexivity).
  split; [exact Ha|]. split; [reflexivity|].
  destruct (AddSignature_signedCount _ _ _ Ha) as (old & Hold & Hc & _).
  vm_compute in Hold. simplify_eq. cbn [signed zeroSignature sigOf Sign is_nil negb] in Hc.
  change (signedCount twoOfFive) with 2 in Hc. lia.
Defined.

Lemma fresh_IsValid_iff_zero_threshold_witness :
  NewBTCMultiSig (Msg threeSigners) 2 (Signers threeSigners) = inr threeSigners
  ∧ signedCount threeSigners = 0
  ∧ IsValid threeSigners = false.
Proof.
  assert (Hn : NewBTCMultiSig (Msg threeSigners) 2 (Signers threeSigners)
               = inr threeSigners) by reflexivity.
  split; [exact Hn|].
  destruct (fresh_IsValid_iff_zero_threshold _ _ _ _ Hn) as (Hc & Hv & _).
  split; [exact Hc|].
  destruct (IsValid threeSigners); [|reflexivity].
  by destruct (proj1 Hv eq_refl).
Defined.

Lemma HasAddressSigned_after_AddSignature_witness :
  slot_per_signer threeSigners
  ∧ GetSignerIndex threeSigners (Address_ (sigOf 2 signerC))
    = (Index (sigOf 2 signerC), None)
  ∧ ∃ m', AddSignature threeSigners (sigOf 2 signerC) = Done (m', None)
          ∧ HasAddressSigned m' signerC = Done true.
Proof.
  assert (Hg : GetSignerIndex threeSigners (Address_ (sigOf 2 signerC))
               = (Index (sigOf 2 signerC), None)) by (vm_compute; reflexivity).
  split; [exact threeSigners_slot_per_signer|]. split; [exact Hg|].
  destruct (AddSignature threeSigners (sigOf 2 signerC)) as [[m' [e|]]|] eqn:Ha;
    try (vm_compute in Ha; discriminate Ha).
  exists m'. split; [reflexivity|].
  exact (HasAddressSigned_after_AddSignature _ _ _
           threeSigners_slot_per_signer Hg Ha).
Defined.

Lemma HasAddressSigned_other_slot_witness :
  GetSignerIndex dupSigners signerA = (0, None)
  ∧ 0 ≠ Index (sigOf 2 signerA)
  ∧ ∃ m', AddSignature dupSigners (sigOf 2 signerA) = Done (m', None)
          ∧ HasAddressSigned m' signerA = Done false.
Proof.
  assert (Hg : GetSignerIndex dupSigners signerA = (0, None))
    by (vm_compute; reflexivity).
  assert (Hne : 0 ≠ Index (sigOf 2 signerA)) by discriminate.
  split; [exact Hg|]. split; [exact Hne|].
  destruct (AddSignature dupSigners (sigOf 2 signerA)) as [[m' [e|]]|] eqn:Ha;
    try (vm_compute in Ha; discriminate Ha).
  exists m'. split; [reflexivity|].
  rewrite (HasAddressSigned_other_slot _ _ _ _ _ Hg Hne Ha).
  vm_compute. reflexivity.
Defined.

Lemma GetSignaturesInOrder_in_slot_order_witness :
  carries_index twoOfFive
  ∧ GetSignaturesInOrder twoOfFive
    = Done (Some [Some ["s"%byte; "g"%byte]; Some ["s"%byte; "g"%byte]]).
Proof.
  split; [exact twoOfFive_carries_index|].
  rewrite (GetSignaturesInOrder_in_slot_order _ twoOfFive_carries_index).
  vm_compute. reflexivity.
Defined.

Lemma FromBytes_panics_on_foreign_index_witness :
  elems (Signatures foreignIndex) !! 0%nat = Some (sigOf 7 signerA)
  ∧ signed (sigOf 7 signerA) = true
  ∧ (Index (sigOf 7 signerA) < 0
     ∨ len (Signers foreignIndex) <= Index (sigOf 7 signerA))
  ∧ FromBytes threeSigners (Bytes foreignIndex) = Panic.
Proof.
  assert (Hr : Index (sigOf 7 signerA) < 0
               ∨ len (Signers foreignIndex) <= Index (sigOf 7 signerA))
    by (right; unfold len; cbn; lia).
  split; [reflexivity|]. split; [reflexivity|]. split; [exact Hr|].
  exact (FromBytes_panics_on_foreign_index foreignIndex threeSigners 0
           (sigOf 7 signerA) eq_refl eq_refl Hr).
Defined.

Lemma FromBytes_keeps_Address_witness :
  ∃ m', Unmarshal threeSigners (Marshal twoOfFive).1 = Done (m', None)
        ∧ Address textHash m' = Address textHash twoOfFive.
Proof.
  destruct (Unmarshal threeSigners (Marshal twoOfFive).1) as [[m' e]|] eqn:Hu;
    [|vm_compute in Hu; discriminate Hu].
  destruct (FromBytes_keeps_Address textHash _ _ _ _ Hu) as (-> & _ & _ & _ & Ha).
  exists m'. split; [reflexivity | exact Ha].
Defined.

Lemma Bytes_stable_through_round_trip_witness :
  carries_index twoOfFive
  ∧ ∃ m', FromBytes threeSigners (Bytes twoOfFive) = Done (m', None)
          ∧ Bytes m' = Bytes twoOfFive.
Proof.
  split; [exact twoOfFive_carries_index|].
  destruct (FromBytes threeSigners (Bytes twoOfFive)) as [[m' [e|]]|] eqn:Hf;
    try (vm_compute in Hf; discriminate Hf).
  exists m'. split; [reflexivity|].
  exact (Bytes_stable_through_round_trip _ _ _ twoOfFive_carries_index Hf).
Defined.

End MultiSigFacts.

(* ===================================================================== *)
(** * storage: facts about the gas-metered store *)
(* ===================================================================== *)

Module GasFacts.
Import storage.

Section Metered.
Context {ChainState : Type}.
Variable cSet : ChainState → StoreKey → bytes → ChainState * option error.
Variable cGet : ChainState → StoreKey → bool → bytes.
Variable cExists : ChainState → StoreKey → bool.
Variable cRemove : ChainState → StoreKey → ChainState * (bytes * bool).

Lemma call_Consume_keeps (cell : gasCalculator) (amount category : Gas) (o : bool) :
  (call_Consume cell amount category o).2 = cell.
Proof. unfold call_Consume. by destruct (Consume _ _ _ _). Qed.

Lemma call_Consume_ok (cell : gasCalculator) (amount category : Gas) :
  (call_Consume cell amount category false).1 = negb (limit cell <=? consumed cell).
Proof.
  unfold call_Consume, Consume. by destruct (limit cell <=? consumed cell).
Qed.

(** The gate of an operation reads the calculator the pointer refers to. *)
Lemma Set_below_limit (g : GasChainState ChainState) (key : StoreKey)
    (value : bytes) :
  consumed (calc g) < limit (calc g) →
  Set_ ChainState cSet g key value =
    (mkGasChainState (cSet (chain g) key value).1 (calc g),
     (cSet (chain g) key value).2).
Proof.
  intros Hlt. unfold Set_.
  pose proof (call_Consume_ok (calc g) 1 WRITEFLAT) as Hok.
  pose proof (call_Consume_keeps (calc g) 1 WRITEFLAT false) as Hk.
  destruct (call_Consume (calc g) 1 WRITEFLAT false) as [ok c1].
  cbn in Hok, Hk. subst c1 ok.
  assert ((limit (calc g) <=? consumed (calc g)) = false) as -> by lia.
  cbn [negb]. destruct (cSet (chain g) key value) as [c1 [e|]]; [done|].
  pose proof (call_Consume_keeps (calc g) (len value) WRITEBYTES true) as Hk.
  destruct (call_Consume (calc g) (len value) WRITEBYTES true) as [ok c2].
  cbn in Hk. by subst c2.
Qed.

Ltac meter c a k o :=
  let ok := fresh "ok" in let c' := fresh "c" in let E := fresh "E" in
  pose proof (call_Consume_keeps c a k o) as E;
  destruct (call_Consume c a k o) as [ok c']; cbn in E; subst c'.

Lemma step_keeps_calc (g : GasChainState ChainState) (o : op) :
  calc (step ChainState cSet cGet cExists cRemove g o).1 = calc g.
Proof.
  destruct o as [key value|key lc|key|key]; cbn;
    unfold Set_, Get, Exists_, Remove.
  - meter (calc g) 1 WRITEFLAT false. destruct ok; cbn; [|done].
    destruct (cSet (chain g) key value) as [c1 [e|]]; [done|].
    meter (calc g) (len value) WRITEBYTES true. done.
  - meter (calc g) 1 READFLAT false. destruct ok; cbn; [|done].
    meter (calc g) (len (cGet (chain g) key lc)) READBYTES true. done.
  - meter (calc g) 1 CHECKEXIST false. by destruct ok.
  - meter (calc g) 1 DELETE false. destruct ok; cbn; [|done].
    by destruct (cRemove (chain g) key) as [c1 [v b]].
Qed.

Lemma run_keeps_calc (ops : list op) :
  ∀ g : GasChainState ChainState,
    calc (run ChainState cSet cGet cExists cRemove g ops).1 = calc g.
Proof.
  induction ops as [|o ops IH]; intros g; cbn; [done|].
  pose proof (step_keeps_calc g o) as Hs.
  destruct (step _ _ _ _ _ g o) as [g1 r]. cbn in Hs.
  specialize (IH g1). destruct (run _ _ _ _ _ g1 ops) as [g2 rs].
  cbn in *. congruence.
Qed.

End Metered.


(** C2, at the failing input.  A metered store with limit 1000, six
    [Set] calls of a ten-byte value: each call costs 400 by the constants,
    yet none is refused, the consumed gas read afterwards is 0, and the
    budget is not reported as reached. *)
Theorem metered_Set_charges_nothing :
  let g0 := mkGasChainState (∅ : memChainState) (NewGasCalculator 1000) in
  let ops := replicate 6 (OpSet "k" tenBytes) in
  cost (OpSet "k" tenBytes) tenBytes = 400
  ∧ (mem_run g0 ops).2 = replicate 6 (RSet None)
  ∧ GetConsumed (calc (mem_run g0 ops).1) = 0
  ∧ IsEnough (calc (mem_run g0 ops).1) = false.
Proof.
  cbn zeta. split; [reflexivity|]. split.
  - vm_compute. reflexivity.
  - unfold mem_run. rewrite run_keeps_calc. split; reflexivity.
Qed.

Section Gate.
Context {ChainState : Type}.
Variable cSet : ChainState → StoreKey → bytes → ChainState * option error.
Variable cGet : ChainState → StoreKey → bool → bytes.
Variable cExists : ChainState → StoreKey → bool.
Variable cRemove : ChainState → StoreKey → ChainState * (bytes * bool).

Lemma call_Consume_flat (cell : gasCalculator) (amount category : Gas) :
  call_Consume cell amount category false
  = (negb (limit cell <=? consumed cell), cell).
Proof.
  unfold call_Consume, Consume. by destruct (limit cell <=? consumed cell).
Qed.

Lemma call_Consume_bytes (cell : gasCalculator) (amount category : Gas) :
  call_Consume cell amount category true = (true, cell).
Proof. reflexivity. Qed.

Lemma step_closed (g : GasChainState ChainState) (o : op) :
  limit (calc g) <= consumed (calc g) →
  step ChainState cSet cGet cExists cRemove g o = (g, refusal o).
Proof.
  intros Hc. assert (E : (limit (calc g) <=? consumed (calc g)) = true) by lia.
  destruct g as [c k]. cbn [calc chain] in *.
  destruct o; cbn [step refusal]; unfold Set_, Get, Exists_, Remove;
    cbn [calc chain]; rewrite call_Consume_flat, E; reflexivity.
Qed.

Lemma step_open (g : GasChainState ChainState) (o : op) :
  consumed (calc g) < limit (calc g) →
  step ChainState cSet cGet cExists cRemove g o
  = (mkGasChainState (direct ChainState cSet cGet cExists cRemove (chain g) o).1
                     (calc g),
     (direct ChainState cSet cGet cExists cRemove (chain g) o).2).
Proof.
  intros Hc. assert (E : (limit (calc g) <=? consumed (calc g)) = false) by lia.
  destruct g as [c k]. cbn [calc chain] in *.
  destruct o as [key value|key lc|key|key]; cbn [step direct];
    unfold Set_, Get, Exists_, Remove; cbn [calc chain];
    rewrite call_Consume_flat, E; cbn [negb].
  - destruct (cSet c key value) as [c1 [e|]]; [done|].
    by rewrite call_Consume_bytes.
  - by rewrite call_Consume_bytes.
  - done.
  - by destruct (cRemove c key) as [c1 [v b]].
Qed.

(** X12.  Once the consumed gas has reached the limit, no sequence of
    [Set], [Get], [Exists] and [Remove] calls on the gas-metered store
    reaches the underlying chain state or changes the calculator: every
    call gets the refusal reply of its kind. *)
Theorem closed_gate_never_reaches_the_chain_state
    (g : GasChainState ChainState) (ops : list op) :
  limit (calc g) <= consumed (calc g) →
  run ChainState cSet cGet cExists cRemove g ops = (g, refusal <$> ops).
Proof.
  intros Hc. induction ops as [|o ops IH]; [done|].
  cbn [run]. rewrite (step_closed g o Hc), IH. reflexivity.
Qed.

(** X13.  While the consumed gas is below the limit, a sequence of calls
    on the gas-metered store has the effect and the replies of the same
    calls on the underlying chain state, and the calculator the store
    holds is left as it was: the gate never closes by itself. *)
Theorem open_gate_is_transparent
    (g : GasChainState ChainState) (ops : list op) :
  consumed (calc g) < limit (calc g) →
  run ChainState cSet cGet cExists cRemove g ops
  = (mkGasChainState
       (direct_run ChainState cSet cGet cExists cRemove (chain g) ops).1 (calc g),
     (direct_run ChainState cSet cGet cExists cRemove (chain g) ops).2).
Proof.
  revert g. induction ops as [|o ops IH]; intros g Hc.
  - by destruct g.
  - cbn [run direct_run]. rewrite (step_open g o Hc).
    destruct (direct _ _ _ _ _ (chain g) o) as [c1 r]. cbn [fst snd].
    rewrite (IH (mkGasChainState c1 (calc g)) Hc). cbn [chain calc].
    by destruct (direct_run _ _ _ _ _ c1 ops).
Qed.

End Gate.

Lemma closed_gate_never_reaches_the_chain_state_witness :
  let g := mkGasChainState ({["k" := tenBytes]} : memChainState)
                           (NewGasCalculator 0) in
  limit (calc g) <= consumed (calc g)
  ∧ mem_run g [OpRemove "k"; OpSet "k" None; OpGet "k" false; OpExists "k"]
    = (g, [RRemove None false; RSet (Some ErrExceedGasLimit); RGet None;
           RExists false]).
Proof.
  intros g. assert (Hc : limit (calc g) <= consumed (calc g)) by reflexivity.
  split; [exact Hc|].
  exact (closed_gate_never_reaches_the_chain_state
           mem_Set mem_Get mem_Exists mem_Remove g _ Hc).
Defined.

Lemma open_gate_is_transparent_witness :
  let g := mkGasChainState (∅ : memChainState) (NewGasCalculator 1) in
  consumed (calc g) < limit (calc g)
  ∧ (mem_run g [OpSet "k" tenBytes; OpGet "k" false; OpExists "k"]).2
    = [RSet None; RGet tenBytes; RExists true].
Proof.
  intros g. assert (Hc : consumed (calc g) < limit (calc g)) by reflexivity.
  split; [exact Hc|]. unfold mem_run.
  rewrite (open_gate_is_transparent mem_Set mem_Get mem_Exists mem_Remove g _ Hc).
  vm_compute. reflexivity.
Defined.

End GasFacts.

(* ===================================================================== *)
(** * bitcoin: facts about GetTrackerForLock *)
(* ===================================================================== *)

Module TrackerStoreFacts.
Import bitcoin.

Lemma ltb_leb (a b : string) : (a <? b)%string = true → (a <=? b)%string = true.
Proof. unfold String.ltb, String.leb. by destruct (String.compare a b). Qed.

Lemma leb_refl (a : string) : (a <=? a)%string = true.
Proof. by destruct (String.leb_total a a). Qed.

Lemma StronglySorted_filter {A} (R : relation A) (P : A → Prop)
    `{∀ x, Decision (P x)} (l : list A) :
  StronglySorted R l → StronglySorted R (filter P l).
Proof.
  induction 1 as [|a l Hs IH Hall]; [constructor|].
  rewrite filter_cons. case_decide; [|done].
  constructor; [done|]. apply Forall_forall. intros x Hx.
  apply list_elem_of_filter in Hx as [_ Hx].
  rewrite Forall_forall in Hall. by apply Hall.
Qed.

Lemma ltb_trans (a b c : string) :
  (a <? b)%string = true → (b <? c)%string = true → (a <? c)%string = true.
Proof.
  unfold String.ltb. intros H1 H2.
  destruct (String.compare a b) eqn:E1; try discriminate.
  destruct (String.compare b c) eqn:E2; try discriminate.
  apply (proj1 (OrderedTypeEx.String_as_OT.cmp_lt _ _)) in E1, E2.
  pose proof (OrderedTypeEx.String_as_OT.lt_trans _ _ _ E1 E2) as H.
  apply (proj2 (OrderedTypeEx.String_as_OT.cmp_lt _ _)) in H.
  change (String.compare a c = Lt) in H. by rewrite H.
Qed.

Lemma not_ltb_neq (a b : string) :
  (a <? b)%string = false → String.eqb b a = false → (b <? a)%string = true.
Proof.
  unfold String.ltb. intros H1 H2. rewrite String.compare_antisym.
  destruct (String.compare a b) eqn:E; try done.
  apply String.compare_eq_iff in E as ->. by rewrite String.eqb_refl in H2.
Qed.

Lemma written_elem {V : Type} (st : State V) (key : string) (value : V)
    (e : string * V) :
  e ∈ written st key value → e = (key, value) ∨ e ∈ st.
Proof.
  induction st as [|[k v] st IH]; cbn.
  - intros H. apply list_elem_of_singleton in H. by left.
  - destruct (String.eqb k key); [|destruct (key <? k)%string].
    + intros H. apply elem_of_cons in H as [->|H]; [by left|].
      right. apply elem_of_cons. by right.
    + intros H. apply elem_of_cons in H as [->|H]; [by left|by right].
    + intros H. apply elem_of_cons in H as [->|H].
      * right. apply elem_of_cons. by left.
      * destruct (IH H) as [->|H']; [by left|].
        right. apply elem_of_cons. by right.
Qed.

(** Writing a key keeps the state in ascending key order. *)
Lemma written_ordered {V : Type} (st : State V) (key : string) (value : V) :
  ordered st → ordered (written st key value).
Proof.
  unfold ordered. induction 1 as [|[k v] st Hs IH Hall]; cbn.
  - repeat constructor.
  - rewrite Forall_forall in Hall.
    destruct (String.eqb k key) eqn:Ek; [|destruct (key <? k)%string eqn:El].
    + apply String.eqb_eq in Ek as ->. constructor; [done|].
      apply Forall_forall. intros x Hx. exact (Hall x Hx).
    + constructor; [by constructor; [|apply Forall_forall]|].
      constructor; [done|]. apply Forall_forall. intros x Hx.
      exact (ltb_trans _ _ _ El (Hall x Hx)).
    + constructor; [done|]. apply Forall_forall. intros x Hx.
      apply written_elem in Hx as [->|Hx]; [|by apply Hall].
      cbn. by apply not_ltb_neq.
Qed.

Lemma State_Set_ordered {V : Type}
    (Set_error : State V → string → V → option error)
    (st : State V) (key : string) (value : V) :
  ordered st → ordered (State_Set Set_error st key value).1.
Proof.
  intros H. unfold State_Set. destruct (Set_error _ _ _); [done|].
  by apply written_ordered.
Qed.

Lemma SetTracker_ordered {V : Type}
    (Set_error : State V → string → V → option error)
    (ts : TrackerStore V) (name : string) (t : Tracker) :
  ordered (State_ ts) → ordered (State_ (SetTracker Set_error ts name t).1).
Proof.
  intros H. unfold SetTracker. destruct (Serialize _ _); [done|].
  pose proof (State_Set_ordered Set_error (State_ ts)
                (prefix ts +:+ keyFromName name) v H) as Ho.
  by destruct (State_Set _ _ _ _).
Qed.

Section Scan.
Context {V : Type} (ts : TrackerStore V).

#[local] Abbreviation beats := (bitcoin.beats ts).

Lemma lockVisitor_take (k : string) (v : V) (low : Z) (temp : option Tracker)
    (d : Tracker) :
  beats low (k, v) d →
  lockVisitor ts k v (low, temp) = ((CurrentBalance d, Some d), false).
Proof.
  intros (Hd & Ha & Hl). cbn in Hd. unfold lockVisitor. rewrite Hd, Ha.
  apply Z.ltb_lt in Hl. by rewrite Hl.
Qed.

Lemma lockVisitor_skip (k : string) (v : V) (low : Z) (temp : option Tracker) :
  (∀ d, ¬ beats low (k, v) d) →
  lockVisitor ts k v (low, temp) = ((low, temp), false).
Proof.
  intros Hno. unfold lockVisitor.
  destruct (Deserialize (szlr ts) v) as [d|] eqn:Ed; [|done].
  destruct (IsAvailable d && (GetBalance d <? low)) eqn:Eq; [|done].
  apply andb_true_iff in Eq as [Ha Hl]. apply Z.ltb_lt in Hl.
  destruct (Hno d). by repeat split.
Qed.

Lemma beats_dec (low : Z) (e : string * V) :
  (∃ d, beats low e d) ∨ (∀ d, ¬ beats low e d).
Proof.
  unfold bitcoin.beats. destruct (Deserialize (szlr ts) e.2) as [d|]; [|right].
  - destruct (IsAvailable d) eqn:Ha; [|right].
    + destruct (decide (GetBalance d < low)); [left; by exists d|right].
      intros d' (Hd & _ & Hl). by simplify_eq.
    + intros d' (Hd & Ha' & _). simplify_eq. congruence.
  - by intros d' (Hd & _).
Qed.

Lemma beats_fun (low low' : Z) (e : string * V) (d d' : Tracker) :
  beats low e d → beats low' e d' → d = d'.
Proof. intros (H1 & _) (H2 & _). congruence. Qed.

Lemma visit_lock (l : list (string * V)) :
  ∀ (low : Z) (temp : option Tracker),
    (visit (lockVisitor ts) l (low, temp) = (low, temp)
     ∧ ∀ e d, e ∈ l → ¬ beats low e d)
    ∨ (∃ l1 e d l2,
         l = l1 ++ e :: l2 ∧ beats low e d
         ∧ visit (lockVisitor ts) l (low, temp) = (CurrentBalance d, Some d)
         ∧ (∀ e' d', e' ∈ l1 → beats low e' d' → GetBalance d < GetBalance d')
         ∧ (∀ e' d', e' ∈ l2 → beats low e' d' → GetBalance d <= GetBalance d')).
Proof.
  induction l as [|[k v] l IH]; intros low temp.
  - left. split; [done|]. intros e d He. by apply elem_of_nil in He.
  - cbn [visit]. destruct (beats_dec low (k, v)) as [[d0 Hb0]|Hno].
    + rewrite (lockVisitor_take _ _ _ _ _ Hb0).
      right. destruct (IH (CurrentBalance d0) (Some d0))
        as [[Hv Hnone]|(l1 & e & d & l2 & -> & Hb & Hv & H1 & H2)].
      * exists [], (k, v), d0, l. split; [done|]. split; [done|].
        split; [done|]. split.
        -- intros e' d' He'. by apply elem_of_nil in He'.
        -- intros e' d' He' (Hd & Ha & Hl).
           destruct (decide (GetBalance d0 <= GetBalance d')); [done|].
           exfalso. apply (Hnone e' d' He'). split; [done|]. split; [done|].
           unfold GetBalance in *. lia.
      * destruct Hb as (Hd & Ha & Hl). destruct Hb0 as (Hd0 & Ha0 & Hl0).
        unfold GetBalance in *.
        exists ((k, v) :: l1), e, d, l2. split; [done|].
        split; [split; [done|split; [done|unfold GetBalance; lia]]|].
        split; [done|]. split.
        -- intros e' d' He' (Hd' & Ha' & Hl').
           apply elem_of_cons in He' as [->|He'].
           ++ cbn in Hd', Hd0. rewrite Hd0 in Hd'. injection Hd' as <-. lia.
           ++ destruct (decide (CurrentBalance d' < CurrentBalance d0)); [|lia].
              apply (H1 e' d' He'). split; [done|]. split; done.
        -- intros e' d' He' (Hd' & Ha' & Hl').
           destruct (decide (CurrentBalance d' < CurrentBalance d0)); [|lia].
           apply (H2 e' d' He'). split; [done|]. split; done.
    + rewrite (lockVisitor_skip _ _ _ _ Hno).
      destruct (IH low temp)
        as [[Hv Hnone]|(l1 & e & d & l2 & -> & Hb & Hv & H1 & H2)].
      * left. split; [done|]. intros e d He.
        apply elem_of_cons in He as [->|He]; [apply Hno | by apply Hnone].
      * right. exists ((k, v) :: l1), e, d, l2. split; [done|].
        split; [done|]. split; [done|]. split; [|done].
        intros e' d' He' Hb'. apply elem_of_cons in He' as [->|He'].
        -- by destruct (Hno d').
        -- by apply (H1 e' d').
Qed.

End Scan.

(** C4, as amended.  On a key-ordered state, [GetTrackerForLock] returns
    a tracker decoded from a scanned entry (key in the range from
    [prefix ++ "tracker_  "] to [prefix ++ "tracker_~~"]) that is available
    with balance below 999999999999999, whose balance is lowest among such
    entries, the smallest key winning a tie; it fails with the
    no-tracker-found error exactly when no scanned entry decodes to such a
    tracker. *)
Theorem GetTrackerForLock_spec {V : Type} (ts : TrackerStore V) :
  ordered (State_ ts) →
  match GetTrackerForLock ts with
  | inr d =>
      ∃ k v,
        (k, v) ∈ scanned ts ∧ Deserialize (szlr ts) v = Some d ∧ eligible d
        ∧ ∀ k' v' d',
            (k', v') ∈ scanned ts → Deserialize (szlr ts) v' = Some d' →
            eligible d' →
            GetBalance d < GetBalance d'
            ∨ (GetBalance d = GetBalance d' ∧ (k <=? k')%string = true)
  | inl e =>
      e = errors_New "no tracker found"
      ∧ ∀ k v d,
          (k, v) ∈ scanned ts → Deserialize (szlr ts) v = Some d → ¬ eligible d
  end.
Proof.
  intros Hord. unfold GetTrackerForLock, IterateRange. fold (scanned ts).
  assert (Hsorted : ordered (scanned ts))
    by (apply StronglySorted_filter; exact Hord).
  destruct (visit_lock ts (scanned ts) initialLowest None)
    as [[Hv Hnone]|(l1 & [k v] & d & l2 & Hsplit & Hb & Hv & H1 & H2)];
    rewrite Hv.
  - split; [done|]. intros k v d Hin Hd [Ha Hl].
    apply (Hnone (k, v) d Hin). by repeat split.
  - destruct Hb as (Hd & Ha & Hl). cbn in Hd.
    exists k, v. split; [rewrite Hsplit; set_solver|]. split; [done|].
    split; [by split|]. intros k' v' d' Hin Hd' [Ha' Hl'].
    assert (Hb' : beats ts initialLowest (k', v') d') by by repeat split.
    rewrite Hsplit in Hin, Hsorted.
    apply elem_of_app in Hin as [Hin|Hin]; [left; by apply (H1 (k', v') d')|].
    apply elem_of_cons in Hin as [Heq|Hin].
    + injection Heq as -> ->. right. split; [congruence | apply leb_refl].
    + pose proof (H2 (k', v') d' Hin Hb') as Hle.
      destruct (decide (GetBalance d < GetBalance d')); [by left|right].
      split; [lia|]. apply ltb_leb.
      apply StronglySorted_app_1_r in Hsorted.
      apply StronglySorted_inv in Hsorted as [_ Hall].
      rewrite Forall_forall in Hall. exact (Hall (k', v') Hin).
Qed.

Lemma abcStore_ordered : ordered (State_ abcStore).
Proof. vm_compute. repeat constructor. Qed.

Lemma GetTrackerForLock_spec_witness :
  ordered (State_ abcStore)
  ∧ GetTrackerForLock abcStore = inr trackerB
  ∧ ∀ k' v' d',
      (k', v') ∈ scanned abcStore → v' = Some d' → eligible d' →
      GetBalance trackerB < GetBalance d'
      ∨ (GetBalance trackerB = GetBalance d' ∧ ("btct_tracker_b" <=? k')%string = true).
Proof.
  split; [exact abcStore_ordered|].
  pose proof (GetTrackerForLock_spec abcStore abcStore_ordered) as H.
  assert (E : GetTrackerForLock abcStore = inr trackerB) by (vm_compute; reflexivity).
  rewrite E in H. split; [reflexivity|].
  destruct H as (k & v & Hin & Hd & _ & Hmin).
  assert (k = "btct_tracker_b") as ->.
  { vm_compute in Hin.
    repeat (apply elem_of_cons in Hin as [Hin|Hin];
            [injection Hin as -> ->; first [reflexivity | discriminate Hd]|]).
    by apply elem_of_nil in Hin. }
  exact Hmin.
Defined.

(** C4, counterexample.  A stored, available tracker is not returned when
    its balance is 999999999999999, nor when its key lies outside the
    scanned range (a tracker stored under the name [A]). *)
Lemma GetTrackerForLock_misses_stored_trackers :
  (let big := mkTracker "tracker_A" true 999999999999999 in
   let ts := setAll emptyStore [big] in
   State_ ts = [("btct_tracker_a", Some big)]
   ∧ IsAvailable big = true
   ∧ GetTrackerForLock ts = inl (errors_New "no tracker found"))
  ∧ (let a := mkTracker "A" true 50 in
     let ts := setAll emptyStore [a] in
     State_ ts = [("btct_a", Some a)]
     ∧ IsAvailable a = true
     ∧ GetTrackerForLock ts = inl (errors_New "no tracker found")).
Proof. vm_compute. repeat split. Qed.

Lemma lower_lower (c : Ascii.ascii) : lower (lower c) = lower c.
Proof.
  unfold lower.
  destruct ((65 <=? Ascii.N_of_ascii c)%N && (Ascii.N_of_ascii c <=? 90)%N) eqn:E.
  - apply andb_true_iff in E as [E1 E2].
    apply N.leb_le in E1. apply N.leb_le in E2.
    rewrite Ascii.N_ascii_embedding by lia.
    assert (((65 <=? Ascii.N_of_ascii c + 32)%N
             && (Ascii.N_of_ascii c + 32 <=? 90)%N) = false) as ->; [|done].
    apply andb_false_iff. right. apply N.leb_gt. lia.
  - by rewrite E.
Qed.

Lemma ToLower_idempotent (s : string) : ToLower (ToLower s) = ToLower s.
Proof. induction s as [|c s IH]; cbn; [done|]. by rewrite lower_lower, IH. Qed.

Lemma State_Get_written_eq {V : Type} (st : State V) (key : string) (value : V) :
  State_Get (written st key value) key = Some value.
Proof.
  induction st as [|[k v] st IH]; cbn.
  - by rewrite String.eqb_refl.
  - destruct (String.eqb k key) eqn:E; cbn.
    + by rewrite String.eqb_refl.
    + destruct (key <? k)%string; cbn.
      * by rewrite String.eqb_refl.
      * by rewrite E.
Qed.

Lemma State_Get_written_ne {V : Type} (st : State V) (key key' : string) (value : V) :
  key ≠ key' →
  State_Get (written st key value) key' = State_Get st key'.
Proof.
  intros Hne. apply String.eqb_neq in Hne.
  induction st as [|[k v] st IH]; cbn.
  - by rewrite Hne.
  - destruct (String.eqb k key) eqn:E; cbn.
    + apply String.eqb_eq in E as ->. by rewrite Hne.
    + destruct (key <? k)%string; cbn.
      * by rewrite Hne.
      * by rewrite IH.
Qed.

(** A write, failed or not, leaves what is stored under other keys. *)
Lemma State_Get_Set_ne {V : Type}
    (Set_error : State V → string → V → option error)
    (st : State V) (key key' : string) (value : V) :
  key ≠ key' →
  State_Get (State_Set Set_error st key value).1 key' = State_Get st key'.
Proof.
  intros Hne. unfold State_Set. destruct (Set_error _ _ _); [done|].
  by apply State_Get_written_ne.
Qed.

Lemma append_inj_r (p a b : string) : p +:+ a = p +:+ b → a = b.
Proof. induction p as [|c p IH]; cbn; [done|]. intros [= H]. by apply IH. Qed.

(** X14.  For ASCII names, a serializer that reads back what it wrote and
    a write the state accepts: [SetTracker] returns nil and makes the key
    of the prefix and the lower-cased name hold the record, and [Get] of
    any spelling of that name that differs only in letter case returns
    the tracker, carrying the name it was stored under. *)
Theorem Get_after_SetTracker {V : Type}
    (Set_error : State V → string → V → option error) (ts : TrackerStore V)
    (name name' : string) (t : Tracker) (data : V) :
  isASCII name = true → isASCII name' = true →
  Serialize (szlr ts) (with_Name t name) = inr data →
  Deserialize (szlr ts) data = Some (with_Name t name) →
  Set_error (State_ ts) (prefix ts +:+ ToLower name) data = None →
  ToLower name' = ToLower name →
  SetTracker Set_error ts name t
  = (mkTrackerStore (written (State_ ts) (prefix ts +:+ ToLower name) data)
                    (szlr ts) (prefix ts), None)
  ∧ Get (SetTracker Set_error ts name t).1 name' = inr (with_Name t name).
Proof.
  intros _ _ Hs Hd He Hn. unfold SetTracker, keyFromName, State_Set.
  rewrite Hs, He. split; [done|].
  unfold Get, keyFromName, State_Exists. cbn [fst State_ szlr prefix].
  rewrite Hn, State_Get_written_eq. cbn. by rewrite Hd.
Qed.

(** X15.  For ASCII names, [SetTracker] under one name leaves the answer
    of [Get] for every name that differs from it by more than letter case
    as it was, whether the write succeeded, the serializer failed or the
    state refused the write. *)
Theorem SetTracker_touches_one_name {V : Type}
    (Set_error : State V → string → V → option error) (ts : TrackerStore V)
    (name name' : string) (t : Tracker) :
  isASCII name = true → isASCII name' = true →
  ToLower name' ≠ ToLower name →
  Get (SetTracker Set_error ts name t).1 name' = Get ts name'.
Proof.
  intros _ _ Hn. unfold SetTracker, keyFromName.
  destruct (Serialize (szlr ts) (with_Name t name)) as [e|data]; [done|].
  pose proof (State_Get_Set_ne Set_error (State_ ts)
                (prefix ts +:+ ToLower name) (prefix ts +:+ ToLower name') data)
    as Hg.
  destruct (State_Set Set_error (State_ ts) (prefix ts +:+ ToLower name) data)
    as [st err].
  unfold Get, keyFromName, State_Exists. cbn [fst State_ szlr prefix] in *.
  rewrite Hg; [done|].
  intros H. apply append_inj_r in H. congruence.
Qed.

(** X16.  For an ASCII name, [Get] of a name with no record under the
    prefix and the lower-cased name returns the tracker-not-found
    error. *)
Theorem Get_unknown_name {V : Type} (ts : TrackerStore V) (name : string) :
  isASCII name = true →
  (∀ e, e ∈ State_ ts → e.1 ≠ prefix ts +:+ ToLower name) →
  Get ts name = inl ErrTrackerNotFound.
Proof.
  intros _ H. unfold Get, keyFromName, State_Exists.
  assert (State_Get (State_ ts) (prefix ts +:+ ToLower name) = None) as ->; [|done].
  induction (State_ ts) as [|[k v] st IH]; [done|]. cbn.
  destruct (String.eqb k (prefix ts +:+ ToLower name)) eqn:E.
  - apply String.eqb_eq in E. destruct (H (k, v)); [apply elem_of_cons; by left|done].
  - apply IH. intros e He. apply H. apply elem_of_cons. by right.
Qed.

Lemma Get_after_SetTracker_witness :
  isASCII "Tracker_A" = true ∧ isASCII "TRACKER_a" = true
  ∧ Serialize (szlr emptyStore) (with_Name trackerA "Tracker_A")
    = inr (Some (with_Name trackerA "Tracker_A"))
  ∧ Deserialize (szlr emptyStore) (Some (with_Name trackerA "Tracker_A"))
    = Some (with_Name trackerA "Tracker_A")
  ∧ ToLower "TRACKER_a" = ToLower "Tracker_A"
  ∧ (SetTracker neverFails emptyStore "Tracker_A" trackerA).2 = None
  ∧ Get (SetTracker neverFails emptyStore "Tracker_A" trackerA).1 "TRACKER_a"
    = inr (with_Name trackerA "Tracker_A").
Proof.
  split; [reflexivity|]. split; [reflexivity|]. split; [reflexivity|].
  split; [reflexivity|]. split; [reflexivity|]. split; [reflexivity|].
  exact (proj2 (Get_after_SetTracker neverFails emptyStore "Tracker_A" "TRACKER_a"
                  trackerA (Some (with_Name trackerA "Tracker_A"))
                  eq_refl eq_refl eq_refl eq_refl eq_refl eq_refl)).
Defined.

Lemma SetTracker_touches_one_name_witness :
  isASCII "tracker_Z" = true ∧ isASCII "tracker_A" = true
  ∧ ToLower "tracker_A" ≠ ToLower "tracker_Z"
  ∧ Get (SetTracker neverFails abcStore "tracker_Z" trackerC).1 "tracker_A"
    = inr trackerA.
Proof.
  assert (Hn : ToLower "tracker_A" ≠ ToLower "tracker_Z") by discriminate.
  split; [reflexivity|]. split; [reflexivity|]. split; [exact Hn|].
  rewrite (SetTracker_touches_one_name neverFails abcStore "tracker_Z" "tracker_A"
             trackerC eq_refl eq_refl Hn).
  vm_compute. reflexivity.
Defined.

Lemma Get_unknown_name_witness :
  isASCII "tracker_D" = true
  ∧ (∀ e, e ∈ State_ abcStore → e.1 ≠ prefix abcStore +:+ ToLower "tracker_D")
  ∧ Get abcStore "tracker_D" = inl ErrTrackerNotFound.
Proof.
  assert (H : ∀ e, e ∈ State_ abcStore
                   → e.1 ≠ prefix abcStore +:+ ToLower "tracker_D").
  { intros e He. vm_compute in He.
    repeat (apply elem_of_cons in He as [->|He]; [discriminate|]).
    by apply elem_of_nil in He. }
  split; [reflexivity|]. split; [exact H|].
  exact (Get_unknown_name abcStore "tracker_D" eq_refl H).
Defined.

End TrackerStoreFacts.

(* ===================================================================== *)
(** * event: facts about the handlers and the engine *)
(* ===================================================================== *)

Module HandlerFacts.
Import ethereum event.

Section Guards.
Context {Extra TrackerStore : Type}.
Variable CheckIfVoted : Tracker Extra → keys.Addr → bool.
Variable GetVotes : Tracker Extra → Z.
Variable Finalized_ : Tracker Extra → bool.
Variable State_string : TrackerState → string.
Variable TrackerStore_Delete :
  TrackerStore → string → TrackerStore * (bool * option error).

#[local] Abbreviation Ctx := (TrackerCtx Extra TrackerStore).
#[local] Abbreviation Cleanup := (event.Cleanup Extra TrackerStore TrackerStore_Delete).

(** The four handlers that test the state reject any other state and
    leave the context as it was. *)
Lemma Broadcasting_rejects (c : Ctx) :
  State (Tracker_ _ _ c) ≠ New →
  ∃ e, Broadcasting Extra State_string TrackerStore (AnyTrackerCtx _ _ c)
       = (AnyTrackerCtx _ _ c, Some e).
Proof.
  intros H. unfold Broadcasting, casting.
  rewrite bool_decide_eq_false_2 by done. cbn. eauto.
Qed.

Lemma Finalizing_rejects (c : Ctx) :
  State (Tracker_ _ _ c) ≠ BusyBroadcasting →
  ∃ e, Finalizing Extra CheckIfVoted GetVotes State_string TrackerStore
         (AnyTrackerCtx _ _ c) = (AnyTrackerCtx _ _ c, Some e).
Proof.
  intros H. unfold Finalizing, casting.
  rewrite bool_decide_eq_false_2 by done. cbn. eauto.
Qed.

Lemma Finalization_rejects (c : Ctx) :
  State (Tracker_ _ _ c) ≠ BusyFinalizing →
  ∃ e, Finalization Extra CheckIfVoted Finalized_ State_string TrackerStore
         (AnyTrackerCtx _ _ c) = (AnyTrackerCtx _ _ c, Some e).
Proof.
  intros H. unfold Finalization, casting.
  rewrite bool_decide_eq_false_2 by done. cbn. eauto.
Qed.

Lemma Minting_rejects (c : Ctx) :
  State (Tracker_ _ _ c) ≠ Finalized →
  ∃ e, Minting Extra State_string TrackerStore (AnyTrackerCtx _ _ c)
       = (AnyTrackerCtx _ _ c, Some e).
Proof.
  intros H. unfold Minting, casting.
  rewrite bool_decide_eq_false_2 by done. cbn. eauto.
Qed.

Lemma GetJob_DeleteJob (js js' : JobStore) (id : JobID) (job : Job) :
  consistent js → GetJob js id = inr job → DeleteJob js job = (js', None) →
  GetJob js' id = inl ErrJobNotFound ∧ js' = mkJobStore (delete id (jobs js)) (refused js).
Proof.
  unfold GetJob, DeleteJob. intros Hc Hg Hd.
  destruct (jobs js !! id) as [j|] eqn:E; [|done]. simplify_eq.
  rewrite (Hc _ _ E) in Hd. case_bool_decide; simplify_eq. cbn.
  by rewrite lookup_delete_eq.
Qed.

(** Once the broadcasting job is found and deleted, [Cleanup] looks the
    same job up again and stops there. *)
Lemma Cleanup_stops_at_second_lookup (c : Ctx) (bjob : Job) :
  consistent (JobStore_ _ _ c) →
  jobs (JobStore_ _ _ c) !! GetJobID (Tracker_ _ _ c) BusyBroadcasting = Some bjob →
  GetJobID (Tracker_ _ _ c) BusyBroadcasting ∉ refused (JobStore_ _ _ c) →
  Cleanup (AnyTrackerCtx _ _ c) =
    (AnyTrackerCtx _ _
       (with_JobStore _ _ c
          (mkJobStore (delete (GetJobID (Tracker_ _ _ c) BusyBroadcasting)
                              (jobs (JobStore_ _ _ c)))
                      (refused (JobStore_ _ _ c)))),
     Some (errors_Wrap ErrJobNotFound "failed to get job")).
Proof.
  intros Hc Hj Hr. unfold event.Cleanup, casting.
  unfold GetJob at 1. rewrite Hj.
  unfold DeleteJob at 1. rewrite (Hc _ _ Hj).
  rewrite bool_decide_eq_false_2 by done.
  cbn [with_JobStore JobStore_ Tracker_].
  unfold GetJob at 1. cbn [jobs]. rewrite lookup_delete_eq. reflexivity.
Qed.

(** X25.  [Cleanup] returns an error on every context whose job store is
    consistent: it never reaches the finality-check job or the tracker
    record. *)
Lemma Cleanup_never_succeeds (c : Ctx) :
  consistent (JobStore_ _ _ c) →
  ∃ js e, Cleanup (AnyTrackerCtx _ _ c) = (AnyTrackerCtx _ _ (with_JobStore _ _ c js), Some e)
          ∧ jobs js !! GetJobID (Tracker_ _ _ c) BusyFinalizing
            = jobs (JobStore_ _ _ c) !! GetJobID (Tracker_ _ _ c) BusyFinalizing.
Proof.
  intros Hc.
  destruct (jobs (JobStore_ _ _ c) !! GetJobID (Tracker_ _ _ c) BusyBroadcasting)
    as [bjob|] eqn:Hj.
  - destruct (decide (GetJobID (Tracker_ _ _ c) BusyBroadcasting
                        ∈ refused (JobStore_ _ _ c))) as [Hr|Hr].
    + exists (JobStore_ _ _ c), ErrStore. split; [|done].
      unfold event.Cleanup, casting. unfold GetJob. rewrite Hj.
      unfold DeleteJob. rewrite (Hc _ _ Hj).
      rewrite bool_decide_eq_true_2 by done. by destruct c.
    + eexists _, _. split; [by apply (Cleanup_stops_at_second_lookup c bjob)|].
      cbn. by rewrite lookup_delete_ne.
  - exists (JobStore_ _ _ c), (errors_Wrap ErrJobNotFound "failed to get job").
    split; [|done]. unfold event.Cleanup, casting, GetJob. rewrite Hj. by destruct c.
Qed.

End Guards.

Lemma emptyJobs_consistent : consistent emptyJobs.
Proof. intros id job H. cbn in H. by rewrite lookup_empty in H. Qed.

Lemma SaveJob_consistent (js : JobStore) (job : Job) :
  consistent js → consistent (SaveJob js job).1.
Proof.
  intros Hc id j. unfold SaveJob. case_bool_decide; cbn; [apply Hc|].
  intros Hl. apply lookup_insert_Some in Hl as [[<- <-]|[_ Hl]]; [done|by apply Hc].
Qed.

Lemma bothJobs_consistent (name : string) : consistent (bothJobs name).
Proof. unfold bothJobs. do 2 apply SaveJob_consistent. apply emptyJobs_consistent. Qed.

Lemma bothJobs_jobs (name : string) :
  jobs (bothJobs name) =
    <[(name, BusyFinalizing) := NewETHCheckFinality name BusyFinalizing]>
      (<[(name, BusyBroadcasting) := NewETHBroadcast name BusyBroadcasting]> ∅)
  ∧ refused (bothJobs name) = ∅.
Proof.
  unfold bothJobs, SaveJob, emptyJobs. cbn [refused jobs fst].
  rewrite !bool_decide_eq_false_2 by set_solver. cbn. done.
Qed.

Lemma bothJobs_broadcasting (name : string) :
  jobs (bothJobs name) !! (name, BusyBroadcasting)
  = Some (NewETHBroadcast name BusyBroadcasting).
Proof.
  destruct (bothJobs_jobs name) as [-> _].
  rewrite lookup_insert_ne by done. by rewrite lookup_insert_eq.
Qed.

Lemma bothJobs_finality (name : string) :
  jobs (bothJobs name) !! (name, BusyFinalizing)
  = Some (NewETHCheckFinality name BusyFinalizing).
Proof. destruct (bothJobs_jobs name) as [-> _]. by rewrite lookup_insert_eq. Qed.

Section Cleanup.
Context {Extra TrackerStore : Type}.
Variable TrackerStore_Delete :
  TrackerStore → string → TrackerStore * (bool * option error).

#[local] Abbreviation Cleanup := (event.Cleanup Extra TrackerStore TrackerStore_Delete).

(** C1, at the failing input.  [Cleanup] does not test the state: for a
    tracker in any state (so also outside [Minted]) whose two jobs are
    stored, it returns an error after having deleted the broadcasting
    job. *)
Theorem Cleanup_runs_from_any_state
    (st : TrackerState) (name : string) (completed : bool) (x : Extra)
    (ts : TrackerStore) (node : keys.Addr) :
  let tracker := mkTracker st name completed x in
  let ctx := mkTrackerCtx Extra TrackerStore tracker (bothJobs name) ts node in
  ∃ js',
    Cleanup (AnyTrackerCtx _ _ ctx) =
      (AnyTrackerCtx _ _ (with_JobStore _ _ ctx js'),
       Some (errors_Wrap ErrJobNotFound "failed to get job"))
    ∧ jobs (bothJobs name) !! GetJobID tracker BusyBroadcasting
      = Some (NewETHBroadcast name BusyBroadcasting)
    ∧ jobs js' !! GetJobID tracker BusyBroadcasting = None.
Proof.
  intros tracker ctx. eexists. split; [|split].
  - apply (Cleanup_stops_at_second_lookup TrackerStore_Delete ctx
             (NewETHBroadcast name BusyBroadcasting)).
    + apply bothJobs_consistent.
    + apply bothJobs_broadcasting.
    + cbn. destruct (bothJobs_jobs name) as [_ ->]. set_solver.
  - apply bothJobs_broadcasting.
  - cbn. by rewrite lookup_delete_eq.
Qed.

(** C3, at the failing input.  On a [Minted] tracker whose two jobs are
    stored, [Cleanup] deletes the broadcasting job, looks the same job up
    a second time and returns the resulting error: the finality-check job
    stays in the job store and the tracker store is not touched. *)
Theorem Cleanup_leaves_finality_job_and_tracker
    (name : string) (completed : bool) (x : Extra)
    (ts : TrackerStore) (node : keys.Addr) :
  let tracker := mkTracker Minted name completed x in
  let ctx := mkTrackerCtx Extra TrackerStore tracker (bothJobs name) ts node in
  ∃ ctx' e,
    Cleanup (AnyTrackerCtx _ _ ctx) = (AnyTrackerCtx _ _ ctx', Some e)
    ∧ e = errors_Wrap ErrJobNotFound "failed to get job"
    ∧ jobs (JobStore_ _ _ ctx') !! GetJobID tracker BusyBroadcasting = None
    ∧ jobs (JobStore_ _ _ ctx') !! GetJobID tracker BusyFinalizing
      = Some (NewETHCheckFinality name BusyFinalizing)
    ∧ TrackerStore_ _ _ ctx' = ts.
Proof.
  intros tracker ctx. eexists _, _. split; [|split; [reflexivity|]].
  - apply (Cleanup_stops_at_second_lookup TrackerStore_Delete ctx
             (NewETHBroadcast name BusyBroadcasting)).
    + apply bothJobs_consistent.
    + apply bothJobs_broadcasting.
    + cbn. destruct (bothJobs_jobs name) as [_ ->]. set_solver.
  - cbn. rewrite lookup_delete_eq. rewrite lookup_delete_ne by done.
    split; [done|]. split; [|done]. apply bothJobs_finality.
Qed.

End Cleanup.

Lemma mustRegister_ok {Handler : Type} (e : transition.Engine Handler)
    (t : transition.Transition Handler) :
  transition.From t ∈ transition.statuses e →
  transition.To t = 0 ∨ transition.To t ∈ transition.statuses e →
  transition.transitions e !! transition.Name t = None →
  transition.mustRegister (Done e) t =
    Done (transition.mkEngine Handler (transition.statuses e)
            (<[transition.Name t := t]> (transition.transitions e))).
Proof.
  intros Hf Ht Hn. unfold transition.mustRegister, transition.Register.
  rewrite (bool_decide_eq_true_2 _ Hf).
  assert (bool_decide (transition.To t = 0)
          || bool_decide (transition.To t ∈ transition.statuses e) = true) as ->.
  { destruct Ht as [Ht|Ht]; rewrite (bool_decide_eq_true_2 _ Ht);
      [done | apply orb_true_r]. }
  cbn [andb negb]. rewrite Hn.
  rewrite bool_decide_eq_false_2 by (intros [? ?]; discriminate). done.
Qed.

Section EthEngine.
Context {Extra TrackerStore : Type}.
Variable CheckIfVoted : Tracker Extra → keys.Addr → bool.
Variable GetVotes : Tracker Extra → Z.
Variable Finalized_ : Tracker Extra → bool.
Variable State_string : TrackerState → string.
Variable TrackerStore_Delete :
  TrackerStore → string → TrackerStore * (bool * option error).
Variable code : TrackerState → transition.Status.
Variables BROADCASTING FINALIZING FINALIZE MINTING CLEANUP : string.

#[local] Abbreviation init :=
  (event.init Extra CheckIfVoted GetVotes Finalized_ State_string TrackerStore
              TrackerStore_Delete code
              BROADCASTING FINALIZING FINALIZE MINTING CLEANUP).

(** C9.  With distinct nonzero state constants and distinct transition
    names, [init] builds the engine without panic; its edges are exactly
    BROADCASTING from New to BusyBroadcasting, FINALIZING from
    BusyBroadcasting to BusyFinalizing, FINALIZE from BusyFinalizing to
    Finalized, MINTING from Finalized to Minted and CLEANUP from Minted to
    status 0; every edge leads from a position of the lifecycle (the five
    states in order, then status 0) to the next one, never backward. *)
Theorem EthEngine_is_the_forward_chain :
  NoDup (code <$> lifecycle) →
  (∀ s, code s ≠ 0) →
  NoDup [BROADCASTING; FINALIZING; FINALIZE; MINTING; CLEANUP] →
  ∃ e,
    init = Done e
    ∧ transition.edges e ≡ₚ
        [(BROADCASTING, code New, code BusyBroadcasting);
         (FINALIZING, code BusyBroadcasting, code BusyFinalizing);
         (FINALIZE, code BusyFinalizing, code Finalized);
         (MINTING, code Finalized, code Minted);
         (CLEANUP, code Minted, 0)]
    ∧ ∀ name from to,
        (name, from, to) ∈ transition.edges e →
        ∃ i, chain code !! i = Some from
             ∧ chain code !! S i = Some to
             ∧ ∀ j k, chain code !! j = Some from → chain code !! k = Some to →
                      k = S j.
Proof.
  intros Hcodes Hnz Hnames.
  assert (Hchain : NoDup (chain code)).
  { unfold chain. apply NoDup_app. split; [done|]. split; [|apply NoDup_singleton].
    intros x Hx Hx0. apply list_elem_of_singleton in Hx0 as ->.
    apply list_elem_of_fmap in Hx as (s & Hs & _). by apply (Hnz s). }
  cbn in Hcodes.
  apply NoDup_cons in Hnames as [N1 Hnames]. apply NoDup_cons in Hnames as [N2 Hnames].
  apply NoDup_cons in Hnames as [N3 Hnames]. apply NoDup_cons in Hnames as [N4 _].
  unfold event.init. cbv zeta. unfold transition.NewEngine.
  rewrite decide_True by exact Hcodes.
  eexists. split.
  { rewrite (mustRegister_ok (transition.mkEngine _ _ _));
    cbn [transition.statuses transition.transitions transition.Name
         transition.From transition.To];
    [|set_solver|set_solver|apply lookup_empty].
  rewrite (mustRegister_ok (transition.mkEngine _ _ _));
    cbn [transition.statuses transition.transitions transition.Name
         transition.From transition.To];
    [|set_solver|set_solver
     |rewrite !lookup_insert_ne by set_solver; apply lookup_empty].
  rewrite (mustRegister_ok (transition.mkEngine _ _ _));
    cbn [transition.statuses transition.transitions transition.Name
         transition.From transition.To];
    [|set_solver|set_solver
     |rewrite !lookup_insert_ne by set_solver; apply lookup_empty].
  rewrite (mustRegister_ok (transition.mkEngine _ _ _));
    cbn [transition.statuses transition.transitions transition.Name
         transition.From transition.To];
    [|set_solver|set_solver
     |rewrite !lookup_insert_ne by set_solver; apply lookup_empty].
  rewrite (mustRegister_ok (transition.mkEngine _ _ _));
    cbn [transition.statuses transition.transitions transition.Name
         transition.From transition.To];
    [|set_solver|by left
     |rewrite !lookup_insert_ne by set_solver; apply lookup_empty].
    reflexivity. }
  match goal with |- ?P ∧ _ => assert (Hperm : P) end.
  { unfold transition.edges. cbn [transition.transitions].
    do 4 (rewrite map_to_list_insert
            by (rewrite !lookup_insert_ne by set_solver; apply lookup_empty)).
    rewrite map_to_list_insert by apply lookup_empty.
    rewrite map_to_list_empty. cbn.
    match goal with |- _ ≡ₚ ?l => rewrite <- (reverse_Permutation l) end.
    reflexivity. }
  split; [exact Hperm|].
  intros name from to Hin. rewrite Hperm in Hin.
  assert (Hpos : ∀ j k x, chain code !! j = Some x → chain code !! k = Some x → j = k).
  { intros j k x. apply NoDup_lookup. exact Hchain. }
  assert (Hstep : ∀ i, chain code !! i = Some from → chain code !! S i = Some to →
            ∃ i, chain code !! i = Some from
                 ∧ chain code !! S i = Some to
                 ∧ ∀ j k, chain code !! j = Some from → chain code !! k = Some to →
                          k = S j).
  { intros i Hi HSi. exists i. split; [done|]. split; [done|]. intros j k Hj Hk.
    rewrite <- (Hpos _ _ _ Hi Hj). exact (Hpos _ _ _ Hk HSi). }
  repeat (apply elem_of_cons in Hin as [Hin|Hin];
          [injection Hin as -> -> ->|]).
  - by apply (Hstep 0%nat).
  - by apply (Hstep 1%nat).
  - by apply (Hstep 2%nat).
  - by apply (Hstep 3%nat).
  - by apply (Hstep 4%nat).
  - by apply elem_of_nil in Hin.
Qed.

End EthEngine.

Lemma EthEngine_is_the_forward_chain_witness :
  NoDup (ordinal <$> lifecycle)
  ∧ (∀ s, ordinal s ≠ 0)
  ∧ NoDup ["BROADCASTING"; "FINALIZING"; "FINALIZE"; "MINTING"; "CLEANUP"]
  ∧ ∃ e,
      event.init unit (λ _ _, false) (λ _, 0) (λ _, false) (λ _, "") unit
                 unitDelete ordinal
                 "BROADCASTING" "FINALIZING" "FINALIZE" "MINTING" "CLEANUP"
        = Done e
      ∧ transition.edges e ≡ₚ
          [("BROADCASTING", 1, 2); ("FINALIZING", 2, 3); ("FINALIZE", 3, 4);
           ("MINTING", 4, 5); ("CLEANUP", 5, 0)].
Proof.
  assert (H1 : NoDup (ordinal <$> lifecycle))
    by (apply (bool_decide_unpack _); vm_compute; exact I).
  assert (H2 : ∀ s, ordinal s ≠ 0) by (intros []; discriminate).
  assert (H3 : NoDup ["BROADCASTING"; "FINALIZING"; "FINALIZE"; "MINTING"; "CLEANUP"])
    by (apply (bool_decide_unpack _); vm_compute; exact I).
  split; [exact H1|]. split; [exact H2|]. split; [exact H3|].
  destruct (EthEngine_is_the_forward_chain (Extra := unit) (TrackerStore := unit)
              (λ _ _, false) (λ _, 0) (λ _, false) (λ _, "") unitDelete ordinal
              "BROADCASTING" "FINALIZING" "FINALIZE" "MINTING" "CLEANUP"
              H1 H2 H3) as (e & He & Hp & _).
  exists e. split; [exact He | exact Hp].
Defined.

Section Steps.
Context {Extra TrackerStore : Type}.
Variable CheckIfVoted : Tracker Extra → keys.Addr → bool.
Variable GetVotes : Tracker Extra → Z.
Variable Finalized_ : Tracker Extra → bool.
Variable State_string : TrackerState → string.
Variable TrackerStore_Delete :
  TrackerStore → string → TrackerStore * (bool * option error).

#[local] Abbreviation Ctx := (TrackerCtx Extra TrackerStore).
#[local] Abbreviation Any := (AnyTrackerCtx Extra TrackerStore).
#[local] Abbreviation Broadcasting := (event.Broadcasting Extra State_string TrackerStore).
#[local] Abbreviation Finalizing :=
  (event.Finalizing Extra CheckIfVoted GetVotes State_string TrackerStore).
#[local] Abbreviation Finalization :=
  (event.Finalization Extra CheckIfVoted Finalized_ State_string TrackerStore).
#[local] Abbreviation Minting := (event.Minting Extra State_string TrackerStore).
#[local] Abbreviation Cleanup := (event.Cleanup Extra TrackerStore TrackerStore_Delete).
#[local] Abbreviation setTracker := (with_Tracker Extra TrackerStore).
#[local] Abbreviation setJobs := (with_JobStore Extra TrackerStore).
#[local] Abbreviation tracker := (Tracker_ Extra TrackerStore).
#[local] Abbreviation jobStore := (JobStore_ Extra TrackerStore).
#[local] Abbreviation trackerStore := (TrackerStore_ Extra TrackerStore).
#[local] Abbreviation node := (CurrNodeAddr Extra TrackerStore).

Lemma Broadcasting_ok (c : Ctx) :
  State (tracker c) = New →
  GetJobID (tracker c) BusyBroadcasting ∉ refused (jobStore c) →
  Broadcasting (Any c)
  = (Any (setJobs (setTracker c (with_State (tracker c) BusyBroadcasting))
            (mkJobStore
               (<[GetJobID (tracker c) BusyBroadcasting :=
                    NewETHBroadcast (TrackerName (tracker c)) BusyBroadcasting]>
                  (jobs (jobStore c)))
               (refused (jobStore c)))), None).
Proof.
  intros Hs Hr. unfold event.Broadcasting, casting.
  rewrite bool_decide_eq_true_2 by done. cbn [negb].
  unfold SaveJob. cbn [with_Tracker JobStore_ Tracker_ with_State State TrackerName
                       NewETHBroadcast Job_GetJobID JobTrackerName TargetState].
  unfold GetJobID in Hr. rewrite bool_decide_eq_false_2 by done. reflexivity.
Qed.

(** X18.  [Broadcasting] on a [New] tracker whose job key the store
    accepts returns nil, moves the tracker to [BusyBroadcasting] and saves
    the broadcasting job under the tracker's name and that state, leaving
    every other job as it was; a second [Broadcasting] on the resulting
    context is rejected with an error and changes nothing. *)
Theorem Broadcasting_once (c : Ctx) :
  State (tracker c) = New →
  GetJobID (tracker c) BusyBroadcasting ∉ refused (jobStore c) →
  ∃ c1 e,
    Broadcasting (Any c) = (Any c1, None)
    ∧ State (tracker c1) = BusyBroadcasting
    ∧ jobs (jobStore c1) !! GetJobID (tracker c) BusyBroadcasting
      = Some (NewETHBroadcast (TrackerName (tracker c)) BusyBroadcasting)
    ∧ (∀ id, id ≠ GetJobID (tracker c) BusyBroadcasting →
             jobs (jobStore c1) !! id = jobs (jobStore c) !! id)
    ∧ Broadcasting (Any c1) = (Any c1, Some e).
Proof.
  intros Hs Hr.
  pose proof (Broadcasting_ok c Hs Hr) as Hok.
  match type of Hok with _ = (AnyTrackerCtx _ _ ?c1, _) =>
    destruct (Broadcasting_rejects State_string c1) as [e He]; [done|];
    exists c1, e end.
  split; [exact Hok|]. split; [done|]. split; [apply lookup_insert_eq|].
  split; [|exact He]. intros id Hid. cbn. by rewrite lookup_insert_ne.
Qed.

Lemma Broadcasting_store_failure (c : Ctx) :
  State (tracker c) = New →
  GetJobID (tracker c) BusyBroadcasting ∈ refused (jobStore c) →
  Broadcasting (Any c)
  = (Any (setTracker c (with_State (tracker c) BusyBroadcasting)),
     Some (jobSerializationFailed ErrStore)).
Proof.
  intros Hs Hr. unfold event.Broadcasting, casting.
  rewrite bool_decide_eq_true_2 by done. cbn [negb].
  unfold SaveJob. cbn [with_Tracker JobStore_ Tracker_ with_State State TrackerName
                       NewETHBroadcast Job_GetJobID JobTrackerName TargetState].
  unfold GetJobID in Hr. rewrite bool_decide_eq_true_2 by done.
  by destruct c.
Qed.

(** X20.  [Finalizing] changes the tracker only by moving it from
    [BusyBroadcasting] to [BusyFinalizing], and only when it returns nil
    and the tracker has at least one vote; when it returns nil with at
    least one vote the tracker is in [BusyFinalizing].  The only job it
    can write is the finality-check job of the tracker, and it never
    touches the tracker store. *)
Theorem Finalizing_moves_only_on_votes (c c' : Ctx) (e : option error) :
  Finalizing (Any c) = (Any c', e) →
  (tracker c' = tracker c
   ∨ (e = None ∧ State (tracker c) = BusyBroadcasting
      ∧ 0 < GetVotes (tracker c)
      ∧ tracker c' = with_State (tracker c) BusyFinalizing))
  ∧ (e = None → 0 < GetVotes (tracker c) →
     State (tracker c') = BusyFinalizing)
  ∧ (∀ id, id ≠ GetJobID (tracker c) BusyFinalizing →
           jobs (jobStore c') !! id = jobs (jobStore c) !! id)
  ∧ trackerStore c' = trackerStore c.
Proof.
  unfold event.Finalizing, casting. intros H.
  destruct (bool_decide (State (tracker c) = BusyBroadcasting)) eqn:Es;
    cbn [negb] in H.
  2: { simplify_eq. split; [by left|]. split; [|done]. intros He; discriminate He. }
  apply bool_decide_eq_true in Es.
  destruct (0 <? GetVotes (tracker c)) eqn:Ev;
    [apply Z.ltb_lt in Ev | apply Z.ltb_ge in Ev].
  - destruct (CheckIfVoted (tracker c) (node c)); cbn [negb] in H.
    { simplify_eq. split; [right; by repeat split|]. by repeat split. }
    destruct (GetJob (jobStore c) (GetJobID (tracker c) BusyBroadcasting))
      as [err|bjob].
    { simplify_eq. split; [by left|]. split; [|done]. intros He; discriminate He. }
    destruct (IsDone bjob).
    2: { simplify_eq. split; [right; by repeat split|]. by repeat split. }
    unfold SaveJob in H.
    cbn [Job_GetJobID NewETHCheckFinality JobTrackerName TargetState] in H.
    case_bool_decide.
    { simplify_eq. split; [by left|]. split; [|done]. intros He; discriminate He. }
    simplify_eq. split; [right; by repeat split|]. split; [done|].
    split; [|done]. intros id Hid. cbn. by rewrite lookup_insert_ne.
  - destruct (CheckIfVoted (tracker c) (node c)); cbn [negb] in H.
    { simplify_eq. split; [by left|]. split; [intros _ ?; lia|]. done. }
    destruct (GetJob (jobStore c) (GetJobID (tracker c) BusyBroadcasting))
      as [err|bjob].
    { simplify_eq. split; [by left|]. split; [|done]. intros He; discriminate He. }
    destruct (IsDone bjob).
    2: { simplify_eq. split; [by left|]. split; [intros _ ?; lia|]. done. }
    unfold SaveJob in H.
    cbn [Job_GetJobID NewETHCheckFinality JobTrackerName TargetState] in H.
    case_bool_decide.
    { simplify_eq. split; [by left|]. split; [|done]. intros He; discriminate He. }
    simplify_eq. split; [by left|]. split; [intros _ ?; lia|].
    split; [|done]. intros id Hid. cbn. by rewrite lookup_insert_ne.
Qed.

Lemma Finalizing_needs_the_broadcast_job (c : Ctx) :
  State (tracker c) = BusyBroadcasting →
  CheckIfVoted (tracker c) (node c) = false →
  jobs (jobStore c) !! GetJobID (tracker c) BusyBroadcasting = None →
  Finalizing (Any c)
  = (Any c, Some (errors_Wrap ErrJobNotFound "failed to get job")).
Proof.
  intros Hs Hv Hj. unfold event.Finalizing, casting.
  rewrite bool_decide_eq_true_2 by done. cbn [negb]. rewrite Hv. cbn [negb].
  unfold GetJob. by rewrite Hj.
Qed.

(** X19.  [Broadcasting] sets the state before it saves the job.  When the
    store refuses the job, the handler returns the job serialization
    error, yet the tracker is left in [BusyBroadcasting] with no job
    saved: [Broadcasting] can no longer run, and for a node that has not
    voted [Finalizing] fails with the job-not-found error. *)
Theorem Broadcasting_store_failure_wedges (c : Ctx) :
  State (tracker c) = New →
  GetJobID (tracker c) BusyBroadcasting ∈ refused (jobStore c) →
  jobs (jobStore c) !! GetJobID (tracker c) BusyBroadcasting = None →
  CheckIfVoted (with_State (tracker c) BusyBroadcasting) (node c) = false →
  ∃ c1 e,
    Broadcasting (Any c) = (Any c1, Some (jobSerializationFailed ErrStore))
    ∧ tracker c1 = with_State (tracker c) BusyBroadcasting
    ∧ jobStore c1 = jobStore c
    ∧ Broadcasting (Any c1) = (Any c1, Some e)
    ∧ Finalizing (Any c1)
      = (Any c1, Some (errors_Wrap ErrJobNotFound "failed to get job")).
Proof.
  intros Hs Hr Hj Hv.
  pose proof (Broadcasting_store_failure c Hs Hr) as Hb.
  match type of Hb with _ = (AnyTrackerCtx _ _ ?c1, _) =>
    destruct (Broadcasting_rejects State_string c1) as [e He]; [done|];
    exists c1, e end.
  split; [exact Hb|]. split; [done|]. split; [done|]. split; [exact He|].
  by apply Finalizing_needs_the_broadcast_job.
Qed.

(** What a handler may do to a context: the stores' failure set, the
    tracker store and the node stay, jobs of other trackers stay, and the
    tracker either stays or moves from [from] to [to]. *)
Ltac frame_goal :=
  repeat match goal with
         | |- _ ∧ _ => split
         | |- ∀ _, _ => intro
         end;
  try done; try (by left); try (right; by repeat split);
  try (cbn; rewrite lookup_insert_ne; [done|];
       let E := fresh in intros E;
       match goal with H : _.1 ≠ _ |- _ => apply H; by rewrite <- E end).

Lemma Broadcasting_step (c c' : Ctx) (e : option error) :
  Broadcasting (Any c) = (Any c', e) →
  trackerStore c' = trackerStore c ∧ node c' = node c
  ∧ refused (jobStore c') = refused (jobStore c)
  ∧ (∀ id, id.1 ≠ TrackerName (tracker c) →
           jobs (jobStore c') !! id = jobs (jobStore c) !! id)
  ∧ (tracker c' = tracker c
     ∨ (State (tracker c) = New
        ∧ tracker c' = with_State (tracker c) BusyBroadcasting)).
Proof.
  unfold event.Broadcasting, casting, SaveJob. intros H.
  destruct (bool_decide (State (tracker c) = New)) eqn:Es; cbn [negb] in H;
    [apply bool_decide_eq_true in Es|];
    cbn [with_Tracker JobStore_ Tracker_ with_State State TrackerName
         NewETHBroadcast Job_GetJobID JobTrackerName TargetState] in H;
    repeat case_bool_decide; simplify_eq; frame_goal.
Qed.

Lemma Finalizing_step (c c' : Ctx) (e : option error) :
  Finalizing (Any c) = (Any c', e) →
  trackerStore c' = trackerStore c ∧ node c' = node c
  ∧ refused (jobStore c') = refused (jobStore c)
  ∧ (∀ id, id.1 ≠ TrackerName (tracker c) →
           jobs (jobStore c') !! id = jobs (jobStore c) !! id)
  ∧ (tracker c' = tracker c
     ∨ (State (tracker c) = BusyBroadcasting
        ∧ tracker c' = with_State (tracker c) BusyFinalizing))
  ∧ (e ≠ None → tracker c' = tracker c).
Proof.
  unfold event.Finalizing, casting, SaveJob. intros H.
  destruct (bool_decide (State (tracker c) = BusyBroadcasting)) eqn:Es;
    cbn [negb] in H; [apply bool_decide_eq_true in Es|];
    [|simplify_eq; frame_goal].
  destruct (0 <? GetVotes (tracker c));
    destruct (CheckIfVoted (tracker c) (node c)); cbn [negb] in H;
    try (simplify_eq; frame_goal; fail);
    (destruct (GetJob (jobStore c) (GetJobID (tracker c) BusyBroadcasting))
       as [err|bjob]; [simplify_eq; frame_goal|]);
    (destruct (IsDone bjob); [|simplify_eq; frame_goal]);
    cbn [Job_GetJobID NewETHCheckFinality JobTrackerName TargetState] in H;
    case_bool_decide; simplify_eq; frame_goal.
Qed.

Lemma Finalization_step (c c' : Ctx) (e : option error) :
  Finalization (Any c) = (Any c', e) →
  trackerStore c' = trackerStore c ∧ node c' = node c
  ∧ refused (jobStore c') = refused (jobStore c)
  ∧ (∀ id, id.1 ≠ TrackerName (tracker c) →
           jobs (jobStore c') !! id = jobs (jobStore c) !! id)
  ∧ (tracker c' = tracker c
     ∨ (State (tracker c) = BusyFinalizing
        ∧ tracker c' = with_State (tracker c) Finalized))
  ∧ (e ≠ None → tracker c' = tracker c).
Proof.
  unfold event.Finalization, casting, SaveJob. intros H.
  destruct (bool_decide (State (tracker c) = BusyFinalizing)) eqn:Es;
    cbn [negb] in H; [apply bool_decide_eq_true in Es|];
    [|simplify_eq; frame_goal].
  destruct (Finalized_ (tracker c));
    destruct (CheckIfVoted (tracker c) (node c)); cbn [negb] in H;
    try (simplify_eq; frame_goal; fail);
    cbn [Job_GetJobID NewETHCheckFinality JobTrackerName TargetState] in H;
    case_bool_decide; simplify_eq; frame_goal.
Qed.

Lemma Minting_step (c c' : Ctx) (e : option error) :
  Minting (Any c) = (Any c', e) →
  trackerStore c' = trackerStore c ∧ node c' = node c
  ∧ refused (jobStore c') = refused (jobStore c)
  ∧ (∀ id, id.1 ≠ TrackerName (tracker c) →
           jobs (jobStore c') !! id = jobs (jobStore c) !! id)
  ∧ (tracker c' = tracker c
     ∨ (State (tracker c) = Finalized
        ∧ tracker c' = with_State (tracker c) Minted))
  ∧ (e ≠ None → tracker c' = tracker c).
Proof.
  unfold event.Minting, casting. intros H.
  destruct (bool_decide (State (tracker c) = Finalized)) eqn:Es;
    cbn [negb] in H; [apply bool_decide_eq_true in Es|];
    [|simplify_eq; frame_goal].
  destruct (TaskCompleted (tracker c)); simplify_eq; frame_goal.
Qed.

Lemma Cleanup_step (c c' : Ctx) (e : option error) :
  Cleanup (Any c) = (Any c', e) → tracker c' = tracker c.
Proof.
  unfold event.Cleanup, casting, DeleteJob. intros H.
  repeat first
    [ progress simplify_eq
    | case_bool_decide
    | match type of H with
      | context [match GetJob ?a ?b with _ => _ end] => destruct (GetJob a b)
      | context [TrackerStore_Delete ?a ?b] =>
          destruct (TrackerStore_Delete a b) as [? [? ?]]
      | context [if ?b then _ else _] => destruct b
      end
    | progress cbn [with_JobStore with_TrackerStore JobStore_ Tracker_
                    TrackerStore_ CurrNodeAddr] in H ];
    done.
Qed.

(** X21.  What [Broadcasting], [Finalizing], [Finalization] and [Minting]
    can change: the tracker store, the node address, the keys the job
    store refuses and the jobs of other trackers stay as they were; of the
    tracker only the state changes, and it stays or advances by exactly
    one position in the lifecycle.  The last three leave the tracker
    untouched whenever they return an error. *)
Theorem state_handlers_frame (h : handler Extra TrackerStore)
    (c c' : Ctx) (e : option error) :
  h ∈ [Broadcasting; Finalizing; Finalization; Minting] →
  h (Any c) = (Any c', e) →
  trackerStore c' = trackerStore c ∧ node c' = node c
  ∧ refused (jobStore c') = refused (jobStore c)
  ∧ (∀ id, id.1 ≠ TrackerName (tracker c) →
           jobs (jobStore c') !! id = jobs (jobStore c) !! id)
  ∧ TrackerName (tracker c') = TrackerName (tracker c)
  ∧ TaskCompleted (tracker c') = TaskCompleted (tracker c)
  ∧ rest (tracker c') = rest (tracker c)
  ∧ (ordinal (State (tracker c')) = ordinal (State (tracker c))
     ∨ ordinal (State (tracker c')) = ordinal (State (tracker c)) + 1)
  ∧ (h ∈ [Finalizing; Finalization; Minting] → e ≠ None →
     tracker c' = tracker c).
Proof.
  intros Hh H.
  assert (Hmove : ∀ from to,
            ordinal to = ordinal from + 1 →
            tracker c' = tracker c
            ∨ (State (tracker c) = from ∧ tracker c' = with_State (tracker c) to) →
            TrackerName (tracker c') = TrackerName (tracker c)
            ∧ TaskCompleted (tracker c') = TaskCompleted (tracker c)
            ∧ rest (tracker c') = rest (tracker c)
            ∧ (ordinal (State (tracker c')) = ordinal (State (tracker c))
               ∨ ordinal (State (tracker c')) = ordinal (State (tracker c)) + 1)).
  { intros from to Ho [->|[Hs ->]]; [by repeat split; try left|].
    repeat split; try done. right. cbn [with_State State]. by rewrite Hs. }
  assert (Hlater : ∀ h', h' ∈ [Finalizing; Finalization; Minting] →
            h' (Any c) = (Any c', e) → e ≠ None → tracker c' = tracker c).
  { intros h' Hh' H' He.
    repeat (apply elem_of_cons in Hh' as [->|Hh']).
    - by apply (Finalizing_step c c' e).
    - by apply (Finalization_step c c' e).
    - by apply (Minting_step c c' e).
    - by apply elem_of_nil in Hh'. }
  repeat (apply elem_of_cons in Hh as [->|Hh]).
  - destruct (Broadcasting_step c c' e H) as (H1 & H2 & H3 & H4 & H5).
    destruct (Hmove New BusyBroadcasting eq_refl H5) as (H6 & H7 & H8 & H9).
    repeat split; try done. intros Hl. by apply (Hlater _ Hl).
  - destruct (Finalizing_step c c' e H) as (H1 & H2 & H3 & H4 & H5 & _).
    destruct (Hmove BusyBroadcasting BusyFinalizing eq_refl H5) as (H6 & H7 & H8 & H9).
    repeat split; try done. intros Hl. by apply (Hlater _ Hl).
  - destruct (Finalization_step c c' e H) as (H1 & H2 & H3 & H4 & H5 & _).
    destruct (Hmove BusyFinalizing Finalized eq_refl H5) as (H6 & H7 & H8 & H9).
    repeat split; try done. intros Hl. by apply (Hlater _ Hl).
  - destruct (Minting_step c c' e H) as (H1 & H2 & H3 & H4 & H5 & _).
    destruct (Hmove Finalized Minted eq_refl H5) as (H6 & H7 & H8 & H9).
    repeat split; try done. intros Hl. by apply (Hlater _ Hl).
  - by apply elem_of_nil in Hh.
Qed.

(** X22.  On a [BusyFinalizing] tracker that is not yet final, for a node
    that has not voted, [Finalization] returns nil, leaves the tracker as
    it is and stores a fresh finality-check job under the tracker's key,
    replacing whatever job was there; running it again on the result
    changes nothing. *)
Theorem Finalization_resets_the_finality_job (c : Ctx) :
  State (tracker c) = BusyFinalizing →
  CheckIfVoted (tracker c) (node c) = false →
  Finalized_ (tracker c) = false →
  GetJobID (tracker c) BusyFinalizing ∉ refused (jobStore c) →
  ∃ c',
    Finalization (Any c) = (Any c', None)
    ∧ tracker c' = tracker c
    ∧ jobs (jobStore c')
      = <[GetJobID (tracker c) BusyFinalizing :=
            NewETHCheckFinality (TrackerName (tracker c)) BusyFinalizing]>
          (jobs (jobStore c))
    ∧ Finalization (Any c') = (Any c', None).
Proof.
  intros Hs Hv Hf Hr.
  assert (Hrun : ∀ c0 : Ctx,
            tracker c0 = tracker c → node c0 = node c →
            refused (jobStore c0) = refused (jobStore c) →
            Finalization (Any c0)
            = (Any (setJobs c0
                      (mkJobStore
                         (<[GetJobID (tracker c) BusyFinalizing :=
                              NewETHCheckFinality (TrackerName (tracker c))
                                                  BusyFinalizing]>
                            (jobs (jobStore c0)))
                         (refused (jobStore c0)))), None)).
  { intros c0 Ht Hn Hr0. unfold event.Finalization, casting, SaveJob.
    rewrite Ht, Hn, Hs. rewrite bool_decide_eq_true_2 by done. cbn [negb].
    rewrite Hv, Hf. cbn [negb].
    cbn [Job_GetJobID NewETHCheckFinality JobTrackerName TargetState].
    unfold GetJobID in Hr. rewrite Hr0.
    rewrite bool_decide_eq_false_2 by done. reflexivity. }
  eexists. split; [by apply Hrun|]. split; [done|]. split; [done|].
  rewrite Hrun by done. cbn [with_JobStore JobStore_ jobs refused].
  by rewrite insert_insert_eq.
Qed.

(** X23.  The four state handlers compose: from a [New] tracker with a
    completed task and an empty job store, for a node that has not voted,
    with a vote at the finalizing step and finality at the finalization
    step, [Broadcasting], [Finalizing], [Finalization] and [Minting] run
    one after the other without error, end in [Minted], and leave exactly
    the broadcasting job and the finality-check job in the job store. *)
Theorem lifecycle_reaches_Minted
    (name : string) (x : Extra) (ts : TrackerStore) (addr : keys.Addr) :
  CheckIfVoted (mkTracker BusyBroadcasting name true x) addr = false →
  0 < GetVotes (mkTracker BusyBroadcasting name true x) →
  CheckIfVoted (mkTracker BusyFinalizing name true x) addr = false →
  Finalized_ (mkTracker BusyFinalizing name true x) = true →
  andThen (andThen (andThen
    (Broadcasting
       (Any (mkTrackerCtx Extra TrackerStore (mkTracker New name true x)
                          emptyJobs ts addr)))
    Finalizing) Finalization) Minting
  = (Any (mkTrackerCtx Extra TrackerStore (mkTracker Minted name true x)
                       (bothJobs name) ts addr), None).
Proof.
  intros Hv1 Hn Hv2 Hf. apply Z.ltb_lt in Hn.
  destruct (bothJobs_jobs name) as [Hj Hr].
  destruct (bothJobs name) as [j r]. cbn [jobs refused] in Hj, Hr. subst j r.
  unfold event.Broadcasting, event.Finalizing, event.Finalization,
    event.Minting, casting, SaveJob, GetJob.
  cbv [Tracker_ JobStore_ TrackerStore_ CurrNodeAddr State TrackerName
       TaskCompleted rest with_Tracker with_JobStore with_State GetJobID
       jobs refused emptyJobs Job_GetJobID NewETHBroadcast
       NewETHCheckFinality JobTrackerName TargetState IsDone Done_ andThen].
  rewrite (bool_decide_eq_true_2 (New = New)) by done.
  rewrite (bool_decide_eq_false_2 ((name, BusyBroadcasting) ∈ (∅ : gset JobID)))
    by set_solver.
  cbv [negb andThen Tracker_ JobStore_ TrackerStore_ CurrNodeAddr State
       TrackerName TaskCompleted rest jobs refused].
  rewrite (bool_decide_eq_true_2 (BusyBroadcasting = BusyBroadcasting)) by done.
  rewrite Hv1. cbv [negb]. rewrite lookup_insert_eq. rewrite Hn.
  cbv [negb andThen Tracker_ JobStore_ TrackerStore_ CurrNodeAddr State
       TrackerName TaskCompleted rest jobs refused].
  rewrite (bool_decide_eq_true_2 (BusyFinalizing = BusyFinalizing)) by done.
  rewrite Hv2. cbv [negb].
  rewrite (bool_decide_eq_false_2 ((name, BusyFinalizing) ∈ (∅ : gset JobID)))
    by set_solver.
  rewrite Hf.
  cbv [negb andThen Tracker_ JobStore_ TrackerStore_ CurrNodeAddr State
       TrackerName TaskCompleted rest jobs refused].
  rewrite (bool_decide_eq_true_2 (Finalized = Finalized)) by done.
  reflexivity.
Qed.

End Steps.

Section Wiring.
Context {Extra TrackerStore : Type}.
Variable CheckIfVoted : Tracker Extra → keys.Addr → bool.
Variable GetVotes : Tracker Extra → Z.
Variable Finalized_ : Tracker Extra → bool.
Variable State_string : TrackerState → string.
Variable TrackerStore_Delete :
  TrackerStore → string → TrackerStore * (bool * option error).
Variable code : TrackerState → transition.Status.
Variables BROADCASTING FINALIZING FINALIZE MINTING CLEANUP : string.

#[local] Abbreviation init :=
  (event.init Extra CheckIfVoted GetVotes Finalized_ State_string TrackerStore
              TrackerStore_Delete code
              BROADCASTING FINALIZING FINALIZE MINTING CLEANUP).
#[local] Abbreviation Any := (AnyTrackerCtx Extra TrackerStore).
#[local] Abbreviation tracker := (Tracker_ Extra TrackerStore).

(** The engine [init] builds, transition by transition. *)
Lemma init_engine :
  NoDup (code <$> lifecycle) →
  NoDup [BROADCASTING; FINALIZING; FINALIZE; MINTING; CLEANUP] →
  init = Done (transition.mkEngine _
    [code New; code BusyBroadcasting; code BusyFinalizing;
     code Finalized; code Minted]
    (<[CLEANUP := transition.mkTransition CLEANUP
         (event.Cleanup Extra TrackerStore TrackerStore_Delete) (code Minted) 0]>
    (<[MINTING := transition.mkTransition MINTING
         (event.Minting Extra State_string TrackerStore)
         (code Finalized) (code Minted)]>
    (<[FINALIZE := transition.mkTransition FINALIZE
         (event.Finalization Extra CheckIfVoted Finalized_ State_string TrackerStore)
         (code BusyFinalizing) (code Finalized)]>
    (<[FINALIZING := transition.mkTransition FINALIZING
         (event.Finalizing Extra CheckIfVoted GetVotes State_string TrackerStore)
         (code BusyBroadcasting) (code BusyFinalizing)]>
    (<[BROADCASTING := transition.mkTransition BROADCASTING
         (event.Broadcasting Extra State_string TrackerStore)
         (code New) (code BusyBroadcasting)]> ∅)))))).
Proof.
  intros Hcodes Hnames. cbn in Hcodes.
  apply NoDup_cons in Hnames as [N1 Hnames]. apply NoDup_cons in Hnames as [N2 Hnames].
  apply NoDup_cons in Hnames as [N3 Hnames]. apply NoDup_cons in Hnames as [N4 _].
  unfold event.init. cbv zeta. unfold transition.NewEngine.
  rewrite decide_True by exact Hcodes.
  rewrite (mustRegister_ok (transition.mkEngine _ _ _));
    cbn [transition.statuses transition.transitions transition.Name
         transition.From transition.To];
    [|set_solver|set_solver|apply lookup_empty].
  do 3 (rewrite (mustRegister_ok (transition.mkEngine _ _ _));
    cbn [transition.statuses transition.transitions transition.Name
         transition.From transition.To];
    [|set_solver|set_solver
     |rewrite !lookup_insert_ne by set_solver; apply lookup_empty]).
  rewrite (mustRegister_ok (transition.mkEngine _ _ _));
    cbn [transition.statuses transition.transitions transition.Name
         transition.From transition.To];
    [|set_solver|by left
     |rewrite !lookup_insert_ne by set_solver; apply lookup_empty].
  reflexivity.
Qed.

(** X24.  The engine [init] builds and the handlers agree: whenever the
    handler registered under a transition changes the tracker of a
    context, the state before is the transition's [From] and the state
    after is its [To]. *)
Theorem handlers_follow_declared_edges :
  NoDup (code <$> lifecycle) →
  NoDup [BROADCASTING; FINALIZING; FINALIZE; MINTING; CLEANUP] →
  ∃ eng,
    init = Done eng
    ∧ ∀ name t c c' e,
        transition.transitions eng !! name = Some t →
        transition.Fn t (Any c) = (Any c', e) →
        tracker c' ≠ tracker c →
        transition.From t = code (State (tracker c))
        ∧ transition.To t = code (State (tracker c')).
Proof.
  intros Hcodes Hnames. eexists. split; [by apply init_engine|].
  intros name t c c' e Hl Hrun Hne. cbn [transition.transitions] in Hl.
  repeat (apply lookup_insert_Some in Hl as [[_ <-]|[_ Hl]]);
    cbn [transition.Fn transition.From transition.To] in *.
  - by apply Cleanup_step in Hrun.
  - apply Minting_step in Hrun as (_ & _ & _ & _ & [?|[Hs ->]] & _); [done|].
    by rewrite Hs.
  - apply Finalization_step in Hrun as (_ & _ & _ & _ & [?|[Hs ->]] & _); [done|].
    by rewrite Hs.
  - apply Finalizing_step in Hrun as (_ & _ & _ & _ & [?|[Hs ->]] & _); [done|].
    by rewrite Hs.
  - apply Broadcasting_step in Hrun as (_ & _ & _ & _ & [?|[Hs ->]]); [done|].
    by rewrite Hs.
  - by rewrite lookup_empty in Hl.
Qed.

End Wiring.

Lemma Broadcasting_once_witness :
  ∃ c1 e,
    (Broadcasting unit (λ _, "") unit (AnyTrackerCtx _ _ (trackerAt New emptyJobs))
     = (AnyTrackerCtx _ _ c1, None))
    ∧ State (Tracker_ _ _ c1) = BusyBroadcasting
    ∧ (Broadcasting unit (λ _, "") unit (AnyTrackerCtx _ _ c1)
       = (AnyTrackerCtx _ _ c1, Some e)).
Proof.
  destruct (Broadcasting_once (λ _, "") (trackerAt New emptyJobs)
              eq_refl (not_elem_of_empty _))
    as (c1 & e & Hb & Hs & _ & _ & Hb2).
  exists c1, e. by repeat split.
Defined.

Lemma Broadcasting_store_failure_wedges_witness :
  ∃ c1,
    (Broadcasting unit (λ _, "") unit
       (AnyTrackerCtx _ _ (trackerAt New refusingJobs))
     = (AnyTrackerCtx _ _ c1, Some (jobSerializationFailed ErrStore)))
    ∧ State (Tracker_ _ _ c1) = BusyBroadcasting
    ∧ (Finalizing unit (λ _ _, false) (λ _, 1) (λ _, "") unit
         (AnyTrackerCtx _ _ c1)
       = (AnyTrackerCtx _ _ c1,
          Some (errors_Wrap ErrJobNotFound "failed to get job"))).
Proof.
  assert (Hr : GetJobID (Tracker_ _ _ (trackerAt New refusingJobs)) BusyBroadcasting
               ∈ refused (JobStore_ _ _ (trackerAt New refusingJobs)))
    by (change ((("t", BusyBroadcasting) : JobID) ∈ ({[ ("t", BusyBroadcasting) ]} : gset JobID));
        apply elem_of_singleton; reflexivity).
  destruct (Broadcasting_store_failure_wedges (λ _ _, false) (λ _, 1) (λ _, "")
              (trackerAt New refusingJobs) eq_refl Hr (lookup_empty _) eq_refl)
    as (c1 & e & Hb & Ht & _ & _ & Hf).
  exists c1. split; [exact Hb|]. split; [by rewrite Ht|exact Hf].
Defined.

Lemma Finalizing_moves_only_on_votes_witness :
  (Finalizing unit (λ _ _, true) (λ _, 1) (λ _, "") unit
     (AnyTrackerCtx _ _ (trackerAt BusyBroadcasting emptyJobs))
   = (AnyTrackerCtx _ _ (trackerAt BusyFinalizing emptyJobs), None))
  ∧ State (Tracker_ _ _ (trackerAt BusyFinalizing emptyJobs)) = BusyFinalizing.
Proof.
  assert (H : Finalizing unit (λ _ _, true) (λ _, 1) (λ _, "") unit
                (AnyTrackerCtx _ _ (trackerAt BusyBroadcasting emptyJobs))
              = (AnyTrackerCtx _ _ (trackerAt BusyFinalizing emptyJobs), None))
    by reflexivity.
  split; [exact H|].
  destruct (Finalizing_moves_only_on_votes (λ _ _, true) (λ _, 1) (λ _, "")
              _ _ _ H) as (_ & Hs & _).
  apply Hs; [reflexivity|]. cbn. lia.
Defined.

Lemma state_handlers_frame_witness :
  (Minting unit (λ _, "") unit (AnyTrackerCtx _ _ (trackerAt Finalized emptyJobs))
   = (AnyTrackerCtx _ _ (trackerAt Minted emptyJobs), None))
  ∧ JobStore_ _ _ (trackerAt Minted emptyJobs)
    = JobStore_ _ _ (trackerAt Finalized emptyJobs)
  ∧ (ordinal (State (Tracker_ _ _ (trackerAt Minted emptyJobs)))
     = ordinal (State (Tracker_ _ _ (trackerAt Finalized emptyJobs)))
     ∨ ordinal (State (Tracker_ _ _ (trackerAt Minted emptyJobs)))
       = ordinal (State (Tracker_ _ _ (trackerAt Finalized emptyJobs))) + 1).
Proof.
  assert (H : Minting unit (λ _, "") unit
                (AnyTrackerCtx _ _ (trackerAt Finalized emptyJobs))
              = (AnyTrackerCtx _ _ (trackerAt Minted emptyJobs), None))
    by reflexivity.
  split; [exact H|]. split; [reflexivity|].
  assert (Hin : Minting unit (λ _, "") unit
                ∈ [Broadcasting unit (λ _, "") unit;
                   Finalizing unit (λ _ _, true) (λ _, 1) (λ _, "") unit;
                   Finalization unit (λ _ _, true) (λ _, true) (λ _, "") unit;
                   Minting unit (λ _, "") unit])
    by (do 3 apply list_elem_of_further; apply list_elem_of_here).
  destruct (state_handlers_frame (λ _ _, true) (λ _, 1) (λ _, true) (λ _, "")
              _ _ _ _ Hin H) as (_ & _ & _ & _ & _ & _ & _ & Ho & _).
  exact Ho.
Defined.

Lemma Finalization_resets_the_finality_job_witness :
  ∃ c',
    (Finalization unit (λ _ _, false) (λ _, false) (λ _, "") unit
       (AnyTrackerCtx _ _ (trackerAt BusyFinalizing emptyJobs))
     = (AnyTrackerCtx _ _ c', None))
    ∧ jobs (JobStore_ _ _ c')
      = <[("t", BusyFinalizing) := NewETHCheckFinality "t" BusyFinalizing]> ∅
    ∧ (Finalization unit (λ _ _, false) (λ _, false) (λ _, "") unit
         (AnyTrackerCtx _ _ c')
       = (AnyTrackerCtx _ _ c', None)).
Proof.
  destruct (Finalization_resets_the_finality_job
              (λ _ _, false) (λ _, false) (λ _, "")
              (trackerAt BusyFinalizing emptyJobs)
              eq_refl eq_refl eq_refl (not_elem_of_empty _))
    as (c' & H1 & _ & H2 & H3).
  exists c'. split; [exact H1|]. split; [exact H2|exact H3].
Defined.

Lemma lifecycle_reaches_Minted_witness :
  andThen (andThen (andThen
    (Broadcasting unit (λ _, "") unit
       (AnyTrackerCtx _ _ (trackerAt New emptyJobs)))
    (Finalizing unit (λ _ _, false) (λ _, 1) (λ _, "") unit))
    (Finalization unit (λ _ _, false) (λ _, true) (λ _, "") unit))
    (Minting unit (λ _, "") unit)
  = (AnyTrackerCtx _ _ (trackerAt Minted (bothJobs "t")), None).
Proof.
  apply (lifecycle_reaches_Minted (λ _ _, false) (λ _, 1) (λ _, true) (λ _, "")
           "t" tt tt None); [reflexivity|reflexivity|reflexivity|reflexivity].
Defined.

Lemma handlers_follow_declared_edges_witness :
  ∃ eng,
    (event.init unit (λ _ _, false) (λ _, 0) (λ _, false) (λ _, "") unit
                unitDelete ordinal
                "BROADCASTING" "FINALIZING" "FINALIZE" "MINTING" "CLEANUP"
     = Done eng)
    ∧ ∀ t, transition.transitions eng !! "BROADCASTING" = Some t →
           transition.Fn t (AnyTrackerCtx _ _ (trackerAt New emptyJobs))
           = (AnyTrackerCtx _ _
                (trackerAt BusyBroadcasting
                   (SaveJob emptyJobs (NewETHBroadcast "t" BusyBroadcasting)).1),
              None) →
           transition.From t = 1 ∧ transition.To t = 2.
Proof.
  assert (H1 : NoDup (ordinal <$> lifecycle))
    by (apply (bool_decide_unpack _); vm_compute; exact I).
  assert (H3 : NoDup ["BROADCASTING"; "FINALIZING"; "FINALIZE"; "MINTING"; "CLEANUP"])
    by (apply (bool_decide_unpack _); vm_compute; exact I).
  destruct (handlers_follow_declared_edges (Extra := unit) (TrackerStore := unit)
              (λ _ _, false) (λ _, 0) (λ _, false) (λ _, "") unitDelete ordinal
              "BROADCASTING" "FINALIZING" "FINALIZE" "MINTING" "CLEANUP"
              H1 H3) as (eng & He & Hedge).
  exists eng. split; [exact He|]. intros t Ht Hrun.
  apply (Hedge _ _ _ _ _ Ht Hrun). discriminate.
Defined.

Lemma Cleanup_never_succeeds_witness :
  ∃ js e,
    (Cleanup unit unit unitDelete
       (AnyTrackerCtx _ _ (trackerAt Minted (bothJobs "t")))
     = (AnyTrackerCtx _ _ (trackerAt Minted js), Some e))
    ∧ jobs js !! ("t", BusyFinalizing)
      = Some (NewETHCheckFinality "t" BusyFinalizing).
Proof.
  destruct (Cleanup_never_succeeds unitDelete (trackerAt Minted (bothJobs "t"))
              (bothJobs_consistent "t")) as (js & e & Hc & Hj).
  exists js, e. split; [exact Hc|].
  exact (eq_trans Hj (bothJobs_finality "t")).
Defined.

End HandlerFacts.
